(** * Date-range arithmetic of [src/lib/leaseLibrary.js]

    A shallow embedding of the four date-range functions of the lease
    library ([dateRangeOverlaps], [checkAvailabibility],
    [compareDateRanges], [dateRangeSplitter]) together with the part of
    the JavaScript run time they rely on: numbers, [Date] objects,
    truthiness, mutable objects held in a store and the console. *)

From stdpp Require Import base gmap strings list fin_maps.
From Stdlib Require Import ZArith Lia Bool Ascii.

Local Open Scope Z_scope.

(** ** JavaScript numbers

    The functions only ever compute with time values, which are integral.
    A number is therefore [NaN], an infinity, or an integer-valued double
    [Num z]; fractional doubles and the sign of zero are left out. *)

Inductive number : Type :=
  | NaN
  | Infinity (negative : bool)
  | Num (z : Z).

Global Instance number_eq_dec : EqDecision number.
Proof. solve_decision. Defined.

(** [x < y] on numbers: every comparison with [NaN] is false. *)
Definition num_lt (x y : number) : bool :=
  match x, y with
  | Num a, Num b => a <? b
  | Num _, Infinity neg => negb neg
  | Infinity neg, Num _ => neg
  | Infinity n1, Infinity n2 => n1 && negb n2
  | _, _ => false
  end.

(** [x > y] *)
Definition num_gt (x y : number) : bool := num_lt y x.

(** [x <= y] *)
Definition num_le (x y : number) : bool :=
  match x, y with
  | NaN, _ | _, NaN => false
  | _, _ => negb (num_lt y x)
  end.

(** [x >= y] *)
Definition num_ge (x y : number) : bool := num_le y x.

(** [x == y] on two numbers. *)
Definition num_eq (x y : number) : bool :=
  match x, y with
  | Num a, Num b => a =? b
  | Infinity n1, Infinity n2 => Bool.eqb n1 n2
  | _, _ => false
  end.

(** [isNaN(x)] on a number. *)
Definition isNaN (x : number) : bool :=
  match x with NaN => true | _ => false end.

(** Rounding of an exact integer result to the nearest double (53 bits of
    precision, ties to even).  It is the identity below [2^53]. *)
Definition round_double (z : Z) : Z :=
  let k := Z.max 0 (Z.log2 (Z.abs z) - 52) in
  let u := 2 ^ k in
  let q := Z.abs z / u in
  let r := Z.abs z mod u in
  let q' := if 2 * r <? u then q
            else if u <? 2 * r then q + 1
            else if Z.even q then q else q + 1 in
  Z.sgn z * (q' * u).

(** [x + y] and [x - y]; overflow to an infinity (beyond [2^1023]) cannot
    arise from time values and is not represented. *)
Definition num_add (x y : number) : number :=
  match x, y with
  | NaN, _ | _, NaN => NaN
  | Infinity n1, Infinity n2 => if Bool.eqb n1 n2 then Infinity n1 else NaN
  | Infinity n, Num _ | Num _, Infinity n => Infinity n
  | Num a, Num b => Num (round_double (a + b))
  end.

Definition num_neg (x : number) : number :=
  match x with
  | NaN => NaN
  | Infinity n => Infinity (negb n)
  | Num a => Num (- a)
  end.

Definition num_sub (x y : number) : number := num_add x (num_neg y).

(** ** Dates *)

(** The largest magnitude of a time value: 100,000,000 days in ms. *)
Definition MAX_TIME : Z := 8640000000000000.

(** [TimeClip] of ECMA-262: a time value is an integer within
    [±MAX_TIME], everything else is [NaN] (an invalid date). *)
Definition TimeClip (n : number) : number :=
  match n with
  | Num z => if Z.abs z <=? MAX_TIME then Num z else NaN
  | _ => NaN
  end.

(** A [Date] object, reduced to its time value.  Nothing in the library
    mutates a [Date], so dates are treated as immutable values. *)
Record Date : Type := mkDate { DateValue : number }.

Global Instance Date_eq_dec : EqDecision Date.
Proof. solve_decision. Defined.

(** [d.getTime()] *)
Definition getTime (d : Date) : number := DateValue d.

(** The values a date field can hold. *)
Inductive value : Type :=
  | VUndefined
  | VNull
  | VBool (b : bool)
  | VNumber (n : number)
  | VString (s : string)
  | VDate (d : Date).

Global Instance value_eq_dec : EqDecision value.
Proof. solve_decision. Defined.

(** [ToBoolean]: the truthiness tested by [!x]. *)
Definition ToBoolean (v : value) : bool :=
  match v with
  | VUndefined | VNull => false
  | VBool b => b
  | VNumber NaN => false
  | VNumber (Num z) => negb (z =? 0)
  | VNumber (Infinity _) => true
  | VString s => negb (String.eqb s "")
  | VDate _ => true
  end.

(** The range objects returned by [dateRangeSplitter]; they are freshly
    built by every call and are represented by value. *)
Record DateRange : Type := mkRange { startDate : Date; endDate : Date }.

Global Instance DateRange_eq_dec : EqDecision DateRange.
Proof. solve_decision. Defined.

(** What [dateRangeSplitter] evaluates to: an array whose elements are
    range objects or [null], or [undefined] when control reaches the end
    of the function body without a [return]. *)
Inductive js_result : Type :=
  | RArray (elements : list (option DateRange))
  | RUndefined.

(** ** The store and the console *)

(** An object is a finite map from property names to values; the store
    maps object references to objects. *)
Abbreviation loc := positive (only parsing).
Abbreviation obj := (gmap string value) (only parsing).

Inductive log_arg : Type :=
  | LogString (s : string)
  | LogObject (o : obj).

Record state : Type := mkState {
  heap : gmap loc obj;
  console : list (list log_arg)
}.

(** Computations read and write the state; [None] is the [TypeError] of
    using something that is not a live object, or not a number where the
    model expects one. *)
Definition M (A : Type) : Type := state → option (A * state).

Definition ret {A} (a : A) : M A := λ st, Some (a, st).

Definition bind {A B} (m : M A) (k : A → M B) : M B :=
  λ st, match m st with
        | Some (a, st') => k a st'
        | None => None
        end.

Notation "'let*' x ':=' m 'in' k" := (bind m (λ x, k))
  (at level 10, x name, m at level 100, k at level 200).
Notation "m ';;' k" := (bind m (λ _, k))
  (at level 100, k at level 200, right associativity).

Definition deref (l : loc) : M obj :=
  λ st, match heap st !! l with
        | Some o => Some (o, st)
        | None => None
        end.

(** [l.f]: a property the object does not have reads as [undefined]. *)
Definition get_prop (l : loc) (f : string) : M value :=
  let* o := deref l in ret (default VUndefined (o !! f)).

(** [l.f = v] *)
Definition set_prop (l : loc) (f : string) (v : value) : M unit :=
  λ st, match heap st !! l with
        | Some o => Some (tt, mkState (<[l := <[f := v]> o]> (heap st)) (console st))
        | None => None
        end.

(** [console.log(args)] *)
Definition console_log (args : list log_arg) : M unit :=
  λ st, Some (tt, mkState (heap st) (console st ++ [args])).

(** [l.f] used as an operand of a comparison, where it holds a number. *)
Definition num_prop (l : loc) (f : string) : M number :=
  let* v := get_prop l f in
  match v with
  | VNumber n => ret n
  | _ => λ _, None
  end.

(** Short-circuit [&&] and [||], and lifted operators. *)
Definition andM (a b : M bool) : M bool :=
  let* x := a in if x then b else ret false.

Definition orM (a b : M bool) : M bool :=
  let* x := a in if x then ret true else b.

Definition lift1 {A B} (f : A → B) (a : M A) : M B :=
  let* x := a in ret (f x).

Definition lift2 {A B C} (f : A → B → C) (a : M A) (b : M B) : M C :=
  let* x := a in let* y := b in ret (f x y).

(** ** Strings

    [s.split(sep)] for a separator of one character: the pieces of [s]
    between the occurrences of [sep], empty pieces included.  (The
    separators used by the library are ASCII, so splitting bytes and
    splitting UTF-16 code units cut the same text.) *)

Fixpoint String_split (sep : Ascii.ascii) (s : string) : list string :=
  match s with
  | EmptyString => [EmptyString]
  | String c rest =>
      if Ascii.eqb c sep then EmptyString :: String_split sep rest
      else match String_split sep rest with
           | piece :: pieces => String c piece :: pieces
           | [] => [String c EmptyString]
           end
  end.

(** Whether character [c] occurs in [s]. *)
Fixpoint occurs (c : Ascii.ascii) (s : string) : bool :=
  match s with
  | EmptyString => false
  | String c' rest => Ascii.eqb c' c || occurs c rest
  end.

(** ** Express requests and responses

    A request carries its headers and the [user] property that a
    middleware may set; a response is what was sent with
    [res.status(n).json(body)] or [res.render(view, locals)].  A handler
    maps a request to the response it sends, if it sends one. *)

Record request : Type := mkRequest {
  headers : gmap string string;
  user : option obj
}.

Inductive response : Type :=
  | StatusJson (status : Z) (body : obj)
  | RenderView (view : string) (locals : obj).

(** [res.status(401).json({ message: "Unauthorized" })] *)
Definition unauthorized : response :=
  StatusJson 401 {[ "message" := VString "Unauthorized" ]}.

(** ** Example ranges

    Dates of January 2024 (UTC midnight, in milliseconds), range objects
    built from two field values, and a store holding two range objects at
    references [1] and [2]. *)

Definition january2024 (day : Z) : Z := 1704067200000 + (day - 1) * 86400000.

Definition onDay (day : Z) : value := VDate (mkDate (Num (january2024 day))).

Definition range (s e : value) : obj := {[ "startDate" := s; "endDate" := e ]}.

Definition two_ranges (r1 r2 : obj) : state :=
  mkState {[ 1%positive := r1; 2%positive := r2 ]} [].

(** A host whose [Date.parse] recognises no string at all. *)
Definition unparsed : string → number := λ _, NaN.

Section LeaseLibrary.

(** [Date.parse] is implementation-defined outside the ISO format; it
    is a parameter of the development. *)
Variable Date_parse : string → number.

(** [new Date(v)] with a single argument. *)
Definition new_Date (v : value) : Date :=
  mkDate (TimeClip
    match v with
    | VUndefined => NaN
    | VNull => Num 0
    | VBool b => Num (if b then 1 else 0)
    | VNumber n => n
    | VString s => Date_parse s
    | VDate d => DateValue d
    end).

(** [new Date(l.f).getTime()] *)
Definition timeOf (l : loc) (f : string) : M number :=
  let* v := get_prop l f in ret (getTime (new_Date v)).

(** [l.f = new Date(l.f).getTime();] *)
Definition normalize_prop (l : loc) (f : string) : M unit :=
  let* t := timeOf l f in set_prop l f (VNumber t).

(** ** [dateRangeOverlaps] *)

Definition dateRangeOverlaps (dateRange1 dateRange2 : loc) : M bool :=
  let* o1 := deref dateRange1 in
  let* o2 := deref dateRange2 in
  console_log [LogObject o1; LogObject o2];;
  normalize_prop dateRange1 "startDate";;
  normalize_prop dateRange1 "endDate";;
  normalize_prop dateRange2 "startDate";;
  normalize_prop dateRange2 "endDate";;
  let* c1 :=
    andM (lift2 num_le (num_prop dateRange1 "startDate") (num_prop dateRange2 "startDate"))
         (lift2 num_le (num_prop dateRange2 "startDate") (num_prop dateRange1 "endDate")) in
  if c1 then ret true (* dateRange2 starts in dateRange1 *)
  else
  let* c2 :=
    andM (lift2 num_le (num_prop dateRange1 "startDate") (num_prop dateRange2 "endDate"))
         (lift2 num_le (num_prop dateRange2 "endDate") (num_prop dateRange1 "endDate")) in
  if c2 then ret true (* dateRange2 ends in dateRange1 *)
  else
  let* c3 :=
    andM (lift2 num_lt (num_prop dateRange2 "startDate") (num_prop dateRange1 "startDate"))
         (lift2 num_lt (num_prop dateRange1 "endDate") (num_prop dateRange2 "endDate")) in
  if c3 then ret true (* dateRange2 includes dateRange1 *)
  else ret false.

(** ** [checkAvailabibility] *)

(** [array.indexOf(x)] on an array of object references: the first
    position holding the very same object, or [-1]. *)
Fixpoint indexOf_from (i : Z) (array : list loc) (x : loc) : Z :=
  match array with
  | [] => -1
  | y :: rest => if decide (y = x) then i else indexOf_from (i + 1) rest x
  end.

Definition indexOf (array : list loc) (x : loc) : Z := indexOf_from 0 array x.

(** The [for (let dr of dateRangeArray)] loop, at the point where [todo]
    is what remains to be visited. *)
Fixpoint checkAvailabibility_loop (dateRangeArray todo : list loc) (dateRange : loc)
  : M Z :=
  match todo with
  | [] => ret (-1)
  | dr :: todo' =>
      let* hit := dateRangeOverlaps dr dateRange in
      if hit then ret (indexOf dateRangeArray dr)
      else checkAvailabibility_loop dateRangeArray todo' dateRange
  end.

Definition checkAvailabibility (dateRangeArray : list loc) (dateRange : loc) : M Z :=
  checkAvailabibility_loop dateRangeArray dateRangeArray dateRange.

(** ** [compareDateRanges] *)

(** [!l.f] *)
Definition missing (l : loc) (f : string) : M bool :=
  lift1 (λ v, negb (ToBoolean v)) (get_prop l f).

(** The result is [null] ([None]) or one of [-1], [0], [1]. *)
Definition compareDateRanges (dr1 dr2 : loc) : M (option Z) :=
  let* incomplete :=
    orM (orM (orM (missing dr1 "startDate") (missing dr1 "endDate"))
             (missing dr2 "startDate"))
        (missing dr2 "endDate") in
  if incomplete then ret None
  else
  let* a_startDate := timeOf dr1 "startDate" in
  let* a_endDate := timeOf dr1 "endDate" in
  let* b_startDate := timeOf dr2 "startDate" in
  let* b_endDate := timeOf dr2 "endDate" in
  if num_lt (num_sub a_endDate a_startDate) (num_sub b_endDate b_startDate)
  then ret (Some (-1))
  else if num_gt (num_sub a_endDate a_startDate) (num_sub b_endDate b_startDate)
  then ret (Some 1)
  else ret (Some 0).

(** ** [dateRangeSplitter] *)

Definition DAY_IN_MS : number := Num (1000 * 60 * 60 * 24).

(** [new Date(new Date(l.f).getTime() + DAY_IN_MS)] and its mirror image. *)
Definition dayAfter (l : loc) (f : string) : M Date :=
  lift1 (λ t, new_Date (VNumber t)) (lift2 num_add (timeOf l f) (ret DAY_IN_MS)).

Definition dayBefore (l : loc) (f : string) : M Date :=
  lift1 (λ t, new_Date (VNumber t)) (lift2 num_sub (timeOf l f) (ret DAY_IN_MS)).

(** [new Date(new Date(l.f).getTime())] *)
Definition sameDay (l : loc) (f : string) : M Date :=
  lift1 (λ t, new_Date (VNumber t)) (timeOf l f).

(** [new Date(l.f)] *)
Definition dateOf (l : loc) (f : string) : M Date :=
  lift1 new_Date (get_prop l f).

Definition dateRangeSplitter (dateRangeToSplit dateRangeToWithdraw : loc)
  : M js_result :=
  (* SECURITY CHECKLIST BEFORE REACHING ALGO *)
  let* incomplete :=
    orM (orM (orM (missing dateRangeToSplit "startDate")
                  (missing dateRangeToSplit "endDate"))
             (missing dateRangeToWithdraw "startDate"))
        (missing dateRangeToWithdraw "endDate") in
  if incomplete then ret (RArray [])
  else
  let* o1 := deref dateRangeToSplit in
  let* o2 := deref dateRangeToWithdraw in
  console_log [LogObject o1; LogObject o2];;
  (* double check if dateRanges overlap *)
  let* overlap := dateRangeOverlaps dateRangeToSplit dateRangeToWithdraw in
  if negb overlap then ret (RArray [])
  else
  (* check if startDate is not superior to endDate *)
  let* reversed :=
    lift2 num_gt (timeOf dateRangeToWithdraw "startDate")
                 (timeOf dateRangeToWithdraw "endDate") in
  if reversed then ret (RArray [])
  else
  (* check if malformed parameters *)
  let* malformed :=
    orM (orM (orM (lift1 isNaN (timeOf dateRangeToWithdraw "startDate"))
                  (lift1 isNaN (timeOf dateRangeToWithdraw "endDate")))
             (lift1 isNaN (timeOf dateRangeToSplit "startDate")))
        (lift1 isNaN (timeOf dateRangeToSplit "endDate")) in
  if malformed then ret (RArray [])
  else
  (* ALGO *)
  let* outside :=
    orM (lift2 num_lt (timeOf dateRangeToWithdraw "startDate")
                      (timeOf dateRangeToSplit "startDate"))
        (lift2 num_gt (timeOf dateRangeToWithdraw "endDate")
                      (lift2 num_add (timeOf dateRangeToSplit "endDate") (ret DAY_IN_MS))) in
  if outside then
    console_log [LogString "branch 1"];;
    (* dateRangeToWithdraw starts before and ends within dateRangeToSplit *)
    let* cas1 :=
      andM (lift2 num_lt (timeOf dateRangeToWithdraw "startDate")
                         (timeOf dateRangeToSplit "startDate"))
           (lift2 num_le (timeOf dateRangeToWithdraw "endDate")
                         (timeOf dateRangeToSplit "endDate")) in
    if cas1 then
      console_log [LogString "branch out-of-boundary cas 1: dateRangeToWithdraw starts before and ends within dateRangeToSplit => [{dr1}]"];;
      let* r := lift2 mkRange (dayAfter dateRangeToWithdraw "endDate")
                              (sameDay dateRangeToSplit "endDate") in
      ret (RArray [Some r])
    else
    (* dateRangeToWithdraw starts within dateRangeToSplit and ends after it *)
    let* cas2 :=
      andM (andM (lift2 num_ge (timeOf dateRangeToWithdraw "startDate")
                               (timeOf dateRangeToSplit "startDate"))
                 (lift2 num_le (timeOf dateRangeToWithdraw "startDate")
                               (timeOf dateRangeToSplit "endDate")))
           (lift2 num_gt (timeOf dateRangeToWithdraw "endDate")
                         (timeOf dateRangeToSplit "endDate")) in
    if cas2 then
      console_log [LogString "branch out-of-boundary cas 2: dateRangeToWithdraw starts within dateRangeToSplit and ends after it => [{dr1}]"];;
      let* r := lift2 mkRange (sameDay dateRangeToSplit "startDate")
                              (dayBefore dateRangeToWithdraw "startDate") in
      ret (RArray [Some r])
    else
    (* dateRangeToWithdraw starts before and ends after dateRangeToSplit *)
    let* cas3 :=
      andM (lift2 num_lt (timeOf dateRangeToWithdraw "startDate")
                         (timeOf dateRangeToSplit "startDate"))
           (lift2 num_gt (timeOf dateRangeToWithdraw "endDate")
                         (timeOf dateRangeToSplit "endDate")) in
    if cas3 then
      console_log [LogString "branch out-of-boundary cas 3: dateRangeToWithdraw starts before and ends after dateRangeToSplit => [{dr1}]"];;
      let* r := lift2 mkRange (dateOf dateRangeToSplit "startDate")
                              (dateOf dateRangeToSplit "endDate") in
      ret (RArray [Some r])
    else ret RUndefined
  else
    (* branch 2 : boundaries of dateRangeToWithdraw are inside of dateRangeToSplit *)
    console_log [LogString "branch 2 : boundaries of dateRangeToWithdraw are inside of dateRangeToSplit"];;
    let* same :=
      andM (lift2 num_eq (timeOf dateRangeToWithdraw "startDate")
                         (timeOf dateRangeToSplit "startDate"))
           (lift2 num_eq (timeOf dateRangeToWithdraw "endDate")
                         (timeOf dateRangeToSplit "endDate")) in
    if same then
      console_log [LogString "branch within-boundaries cas 1: dateRangeToWithdraw commence en même temps que dateRangeToSplit => [{dr1}]"];;
      ret (RArray [None]) (* it means to caller function : delete this entry ! *)
    else
    let* sameStart :=
      lift2 num_eq (timeOf dateRangeToWithdraw "startDate")
                   (timeOf dateRangeToSplit "startDate") in
    if sameStart then
      console_log [LogString "branch within-boundaries cas 2: dateRangeToWithdraw commence en même temps que dateRangeToSplit => [{dr1}]"];;
      let* r := lift2 mkRange (dayAfter dateRangeToWithdraw "endDate")
                              (sameDay dateRangeToSplit "endDate") in
      ret (RArray [Some r])
    else
    let* sameEnd :=
      lift2 num_eq (timeOf dateRangeToWithdraw "endDate")
                   (timeOf dateRangeToSplit "endDate") in
    if sameEnd then
      console_log [LogString "branch within-boundaries cas 3: dateRangeToWithdraw termine en même temps que dateRangeToSplit => [{dr1}]"];;
      let* r := lift2 mkRange (sameDay dateRangeToSplit "startDate")
                              (dayBefore dateRangeToWithdraw "startDate") in
      ret (RArray [Some r])
    else
      console_log [LogString "branch within-boundaries cas 4 : dateRangeToWithdraw is in the middle of dateRangeToSplit => [{dr1},{dr2}]"];;
      let* newStartRange1 :=
        lift2 mkRange (dateOf dateRangeToSplit "startDate")
                      (dayBefore dateRangeToWithdraw "startDate") in
      let* newStartRange2 :=
        lift2 mkRange (dayAfter dateRangeToWithdraw "endDate")
                      (dateOf dateRangeToSplit "endDate") in
      ret (RArray [Some newStartRange1; Some newStartRange2]).

(** ** [verifyJWT] and the bookings route *)

(** [process.env.JWT_SECRET], which may be unset, and
    [jwt.verify(token, secretKey, callback)] of the jsonwebtoken package:
    [None] when the callback receives an error, the decoded payload
    otherwise. *)
Variable secretKey : option string.
Variable jwt_verify : string → option string → option obj.

(** The middleware; [next] is the rest of the route, run on the request
    as the middleware leaves it. *)
Definition verifyJWT (req : request) (next : request → option response)
  : option response :=
  let authHeader := headers req !! "authorization" in
  (* authHeader && authHeader.split(" ")[1] *)
  let token :=
    match authHeader with
    | None => None
    | Some h => if String.eqb h "" then Some h
                else String_split " "%char h !! 1%nat
    end in
  match token with
  | None => Some unauthorized
  | Some t =>
      if String.eqb t "" then Some unauthorized
      else
        match jwt_verify t secretKey with
        | None => Some unauthorized
        | Some decoded => next (mkRequest (headers req) (Some decoded))
        end
  end.

(** [router.post("/", verifyJWT, (req, res) => res.render("index", ...))] *)
Definition bookings_post (req : request) : option response :=
  verifyJWT req (λ _, Some (RenderView "index" {[ "title" := VString "Express" ]})).

(** ** [googleAuthVerify]: the test of the e-mail address *)

(** [payload.email.split("@")[1] === "gmail.com"]; [None] is the
    [TypeError] raised when [payload.email] is not a string. *)
Definition isTokenValid (email : value) : option bool :=
  match email with
  | VString e =>
      Some match String_split "@"%char e !! 1%nat with
           | Some domain => String.eqb domain "gmail.com"
           | None => false
           end
  | _ => None
  end.

(** ** Reading the store *)

(** The time value [new Date(v).getTime()] of a field value. *)
Definition timeValue (v : value) : number := getTime (new_Date v).

(** What [l.f] reads in store [h] ([undefined] when the object lacks the
    property, and also for a reference that is not live). *)
Definition field (h : gmap loc obj) (l : loc) (f : string) : value :=
  match h !! l with
  | Some o => default VUndefined (o !! f)
  | None => VUndefined
  end.

(** The time value of [l.f] in store [h]. *)
Definition time_in (h : gmap loc obj) (l : loc) (f : string) : number :=
  timeValue (field h l f).

(** The object [o] after its two date fields were overwritten with their
    time values, and the store after that was done to object [l]. *)
Definition normalize_obj (o : obj) : obj :=
  <["endDate" := VNumber (timeValue (default VUndefined (o !! "endDate")))]>
    (<["startDate" := VNumber (timeValue (default VUndefined (o !! "startDate")))]> o).

Definition normalize (l : loc) (h : gmap loc obj) : gmap loc obj :=
  match h !! l with
  | Some o => <[l := normalize_obj o]> h
  | None => h
  end.

(** The three tests of [dateRangeOverlaps] on the four time values. *)
Definition overlaps (s1 e1 s2 e2 : number) : bool :=
  (num_le s1 s2 && num_le s2 e1)
  || (num_le s1 e2 && num_le e2 e1)
  || (num_lt s2 s1 && num_lt e1 e2).

(** Whether [dateRangeOverlaps(a, b)] holds in store [h]. *)
Definition overlaps_in (h : gmap loc obj) (a b : loc) : bool :=
  overlaps (time_in h a "startDate") (time_in h a "endDate")
           (time_in h b "startDate") (time_in h b "endDate").

(** All four date fields pass the [!x] tests. *)
Definition complete (h : gmap loc obj) (a b : loc) : bool :=
  ToBoolean (field h a "startDate") && ToBoolean (field h a "endDate")
  && ToBoolean (field h b "startDate") && ToBoolean (field h b "endDate").

(** The value of [dateRangeSplitter] as a function of the presence test
    and of the four time values: split start and end, withdraw start and
    end. *)
Definition split_result (present : bool) (ss se ws we : number) : js_result :=
  if negb present then RArray []
  else if negb (overlaps ss se ws we) then RArray []
  else if num_gt ws we then RArray []
  else if isNaN ws || isNaN we || isNaN ss || isNaN se then RArray []
  else if num_lt ws ss || num_gt we (num_add se DAY_IN_MS) then
    if num_lt ws ss && num_le we se then
      RArray [Some (mkRange (new_Date (VNumber (num_add we DAY_IN_MS)))
                            (new_Date (VNumber se)))]
    else if num_ge ws ss && num_le ws se && num_gt we se then
      RArray [Some (mkRange (new_Date (VNumber ss))
                            (new_Date (VNumber (num_sub ws DAY_IN_MS))))]
    else if num_lt ws ss && num_gt we se then
      RArray [Some (mkRange (new_Date (VNumber ss)) (new_Date (VNumber se)))]
    else RUndefined
  else
    if num_eq ws ss && num_eq we se then RArray [None]
    else if num_eq ws ss then
      RArray [Some (mkRange (new_Date (VNumber (num_add we DAY_IN_MS)))
                            (new_Date (VNumber se)))]
    else if num_eq we se then
      RArray [Some (mkRange (new_Date (VNumber ss))
                            (new_Date (VNumber (num_sub ws DAY_IN_MS))))]
    else
      RArray [Some (mkRange (new_Date (VNumber ss))
                            (new_Date (VNumber (num_sub ws DAY_IN_MS))));
              Some (mkRange (new_Date (VNumber (num_add we DAY_IN_MS)))
                            (new_Date (VNumber se)))].

(** The four shapes of a result array, and the inputs the checklist of
    [dateRangeSplitter] turns down. *)
Definition shape (r : list (option DateRange)) : Prop :=
  r = [] ∨ r = [None] ∨ (∃ x, r = [Some x]) ∨ (∃ x y, r = [Some x; Some y]).

Definition rejected (present : bool) (ss se ws we : number) : Prop :=
  present = false
  ∨ overlaps ss se ws we = false
  ∨ num_gt ws we = true
  ∨ isNaN ss = true ∨ isNaN se = true ∨ isNaN ws = true ∨ isNaN we = true.

(** A field that passes the presence test and is not a valid instant. *)
Definition unparseable (h : gmap loc obj) (l : loc) (f : string) : Prop :=
  ToBoolean (field h l f) = true ∧ time_in h l f = NaN.

(** The own property [l.f], if the object is live and has it. *)
Definition prop_of (h : gmap loc obj) (l : loc) (f : string) : option value :=
  h !! l ≫= λ o : obj, o !! f.

(** What [checkAvailabibility] reports about array [array] and range
    [b] in store [h]: [-1] when no element overlaps, otherwise the position
    of an overlapping element before which none overlaps. *)
Definition first_overlap (h : gmap loc obj) (array : list loc) (b : loc) (r : Z)
  : Prop :=
  (r = -1 ∧ ∀ a, a ∈ array → overlaps_in h a b = false)
  ∨ ∃ (i : nat) a,
      r = Z.of_nat i ∧ array !! i = Some a ∧ overlaps_in h a b = true
      ∧ ∀ (j : nat) a', (j < i)%nat → array !! j = Some a' →
                        overlaps_in h a' b = false.

(** The duration test of [compareDateRanges] on the four time values. *)
Definition compare_result (present : bool) (s1 e1 s2 e2 : number) : option Z :=
  if negb present then None
  else if num_lt (num_sub e1 s1) (num_sub e2 s2) then Some (-1)
  else if num_gt (num_sub e1 s1) (num_sub e2 s2) then Some 1
  else Some 0.

(** The presence test on the four time values, as it comes out once
    the fields hold numbers: a number passes unless it is [NaN] or [0]. *)
Definition truthy_times (h : gmap loc obj) (a b : loc) : bool :=
  ToBoolean (VNumber (time_in h a "startDate"))
  && ToBoolean (VNumber (time_in h a "endDate"))
  && ToBoolean (VNumber (time_in h b "startDate"))
  && ToBoolean (VNumber (time_in h b "endDate")).

(** A time value that fails the presence test once it is stored as a
    number: an invalid date, or the epoch itself. *)
Definition invalid_or_epoch (t : number) : Prop := t = NaN ∨ t = Num 0.

(** The store after [dateRangeOverlaps(a, b)] ran for each [a] of
    [scanned], in order. *)
Definition scan (b : loc) (h : gmap loc obj) (scanned : list loc)
  : gmap loc obj :=
  foldl (λ h' a, normalize b (normalize a h')) h scanned.


(** A computation that returns [x] and leaves the state as it is. *)
Definition reads {A} (m : M A) (st : state) (x : A) : Prop := m st = Some (x, st).

(** ** Numbers and time values *)

Lemma TimeClip_cases n :
  TimeClip n = NaN ∨ ∃ z, TimeClip n = Num z ∧ - MAX_TIME ≤ z ≤ MAX_TIME.
Proof.
  destruct n as [| |z]; simpl; auto.
  destruct (Z.leb_spec (Z.abs z) MAX_TIME); auto.
  right. exists z. split; [done | lia].
Qed.

Lemma TimeClip_idem n : TimeClip (TimeClip n) = TimeClip n.
Proof.
  destruct n as [| |z]; simpl; auto.
  destruct (Z.abs z <=? MAX_TIME) eqn:E; simpl; [by rewrite E | done].
Qed.

Lemma timeValue_cases v :
  timeValue v = NaN ∨ ∃ z, timeValue v = Num z ∧ - MAX_TIME ≤ z ≤ MAX_TIME.
Proof. apply TimeClip_cases. Qed.

Lemma timeValue_number v : timeValue (VNumber (timeValue v)) = timeValue v.
Proof. apply TimeClip_idem. Qed.

Lemma new_Date_timeValue v : new_Date (VNumber (timeValue v)) = new_Date v.
Proof. unfold timeValue, getTime, new_Date; simpl. f_equal. apply TimeClip_idem. Qed.

Lemma new_Date_in_range z :
  - MAX_TIME ≤ z ≤ MAX_TIME → new_Date (VNumber (Num z)) = mkDate (Num z).
Proof.
  intros Hz. unfold new_Date, TimeClip.
  destruct (Z.leb_spec (Z.abs z) MAX_TIME); [done | lia].
Qed.

Lemma round_double_small z : Z.abs z < 2 ^ 53 → round_double z = z.
Proof.
  intros Hz. unfold round_double.
  assert (Hk : Z.max 0 (Z.log2 (Z.abs z) - 52) = 0).
  { destruct (Z.eq_dec (Z.abs z) 0) as [E | E].
    - rewrite E. reflexivity.
    - assert (Z.log2 (Z.abs z) < 53) by (apply Z.log2_lt_pow2; lia). lia. }
  rewrite Hk. change (2 ^ 0) with 1.
  rewrite Z.mod_1_r, Z.div_1_r. simpl. lia.
Qed.

Example round_double_ties :
  round_double (2 ^ 53 + 1) = 2 ^ 53 ∧ round_double (2 ^ 53 + 3) = 2 ^ 53 + 4.
Proof. split; reflexivity. Qed.

Lemma num_add_in_range a b :
  Z.abs a ≤ MAX_TIME → Z.abs b ≤ 2 * 86400000 →
  num_add (Num a) (Num b) = Num (a + b).
Proof.
  intros Ha Hb. simpl. f_equal. apply round_double_small.
  unfold MAX_TIME in Ha. lia.
Qed.

Lemma num_sub_in_range a b :
  Z.abs a ≤ MAX_TIME → Z.abs b ≤ 2 * 86400000 →
  num_sub (Num a) (Num b) = Num (a - b).
Proof.
  intros Ha Hb. unfold num_sub, num_neg. rewrite num_add_in_range; [done | lia..].
Qed.

(** ** Running computations *)

Lemma run_bind {A B} (m : M A) (k : A → M B) st a st' :
  m st = Some (a, st') → bind m k st = k a st'.
Proof. intros H. unfold bind. by rewrite H. Qed.

Lemma run_reads {A B} (m : M A) (k : A → M B) st a :
  reads m st a → bind m k st = k a st.
Proof. apply run_bind. Qed.

Lemma reads_ret {A} (x : A) st : reads (ret x) st x.
Proof. done. Qed.

Lemma reads_lift1 {A B} (f : A → B) m st x :
  reads m st x → reads (lift1 f m) st (f x).
Proof. intros H. unfold reads, lift1. by rewrite (run_reads _ _ _ _ H). Qed.

Lemma reads_lift2 {A B C} (f : A → B → C) m1 m2 st x y :
  reads m1 st x → reads m2 st y → reads (lift2 f m1 m2) st (f x y).
Proof.
  intros H1 H2. unfold reads, lift2.
  by rewrite (run_reads _ _ _ _ H1), (run_reads _ _ _ _ H2).
Qed.

Lemma reads_andM m1 m2 st x y :
  reads m1 st x → reads m2 st y → reads (andM m1 m2) st (x && y).
Proof.
  intros H1 H2. unfold reads, andM. rewrite (run_reads _ _ _ _ H1).
  by destruct x.
Qed.

Lemma reads_orM m1 m2 st x y :
  reads m1 st x → reads m2 st y → reads (orM m1 m2) st (x || y).
Proof.
  intros H1 H2. unfold reads, orM. rewrite (run_reads _ _ _ _ H1).
  by destruct x.
Qed.

Lemma reads_deref h c l o : h !! l = Some o → reads (deref l) (mkState h c) o.
Proof. intros H. unfold reads, deref. simpl. by rewrite H. Qed.

Lemma reads_get_prop h c l f :
  is_Some (h !! l) → reads (get_prop l f) (mkState h c) (field h l f).
Proof.
  intros [o H]. unfold get_prop, field.
  rewrite H. unfold reads. by rewrite (run_reads _ _ _ _ (reads_deref h c l o H)).
Qed.

Lemma reads_timeOf h c l f :
  is_Some (h !! l) → reads (timeOf l f) (mkState h c) (time_in h l f).
Proof.
  intros H. unfold reads, timeOf.
  by rewrite (run_reads _ _ _ _ (reads_get_prop h c l f H)).
Qed.

Lemma reads_missing h c l f :
  is_Some (h !! l) →
  reads (missing l f) (mkState h c) (negb (ToBoolean (field h l f))).
Proof.
  intros H. unfold missing.
  by apply (reads_lift1 (λ v, negb (ToBoolean v))), reads_get_prop.
Qed.

Lemma reads_num_prop h c l f n :
  is_Some (h !! l) → field h l f = VNumber n →
  reads (num_prop l f) (mkState h c) n.
Proof.
  intros H E. unfold reads, num_prop.
  rewrite (run_reads _ _ _ _ (reads_get_prop h c l f H)). by rewrite E.
Qed.

Lemma reads_dateOf h c l f :
  is_Some (h !! l) → reads (dateOf l f) (mkState h c) (new_Date (field h l f)).
Proof. intros H. unfold dateOf. by apply (reads_lift1 new_Date), reads_get_prop. Qed.

Lemma reads_sameDay h c l f :
  is_Some (h !! l) →
  reads (sameDay l f) (mkState h c) (new_Date (VNumber (time_in h l f))).
Proof.
  intros H. unfold sameDay.
  by apply (reads_lift1 (λ t, new_Date (VNumber t))), reads_timeOf.
Qed.

Lemma reads_dayAfter h c l f :
  is_Some (h !! l) →
  reads (dayAfter l f) (mkState h c)
        (new_Date (VNumber (num_add (time_in h l f) DAY_IN_MS))).
Proof.
  intros H. unfold dayAfter.
  apply (reads_lift1 (λ t, new_Date (VNumber t))).
  apply reads_lift2; [by apply reads_timeOf | apply reads_ret].
Qed.

Lemma reads_dayBefore h c l f :
  is_Some (h !! l) →
  reads (dayBefore l f) (mkState h c)
        (new_Date (VNumber (num_sub (time_in h l f) DAY_IN_MS))).
Proof.
  intros H. unfold dayBefore.
  apply (reads_lift1 (λ t, new_Date (VNumber t))).
  apply reads_lift2; [by apply reads_timeOf | apply reads_ret].
Qed.

(** ** The store after normalisation *)

Lemma normalize_obj_startDate (o : obj) :
  normalize_obj o !! "startDate"
  = Some (VNumber (timeValue (default VUndefined (o !! "startDate")))).
Proof.
  unfold normalize_obj. rewrite lookup_insert_ne by done.
  by rewrite lookup_insert_eq.
Qed.

Lemma normalize_obj_endDate (o : obj) :
  normalize_obj o !! "endDate"
  = Some (VNumber (timeValue (default VUndefined (o !! "endDate")))).
Proof. unfold normalize_obj. by rewrite lookup_insert_eq. Qed.

Lemma normalize_obj_other (o : obj) f :
  f ≠ "startDate" → f ≠ "endDate" → normalize_obj o !! f = o !! f.
Proof.
  intros H1 H2. unfold normalize_obj. by rewrite !lookup_insert_ne.
Qed.

Lemma normalize_live l h l' : is_Some (normalize l h !! l') ↔ is_Some (h !! l').
Proof.
  unfold normalize. destruct (h !! l) as [o|] eqn:E; [| done].
  destruct (decide (l = l')) as [-> | Hne].
  - rewrite lookup_insert_eq, E. split; eauto.
  - by rewrite lookup_insert_ne.
Qed.

Lemma field_normalize_startDate l h :
  is_Some (h !! l) →
  field (normalize l h) l "startDate" = VNumber (time_in h l "startDate").
Proof.
  intros [o E]. unfold field, time_in, field, normalize. rewrite E.
  by rewrite lookup_insert_eq, normalize_obj_startDate.
Qed.

Lemma field_normalize_endDate l h :
  is_Some (h !! l) →
  field (normalize l h) l "endDate" = VNumber (time_in h l "endDate").
Proof.
  intros [o E]. unfold field, time_in, field, normalize. rewrite E.
  by rewrite lookup_insert_eq, normalize_obj_endDate.
Qed.

Lemma field_normalize_ne l h l' f :
  l' ≠ l → field (normalize l h) l' f = field h l' f.
Proof.
  intros Hne. unfold field, normalize.
  destruct (h !! l); [| done]. by rewrite lookup_insert_ne.
Qed.

Lemma field_normalize_other l h l' f :
  f ≠ "startDate" → f ≠ "endDate" → field (normalize l h) l' f = field h l' f.
Proof.
  intros H1 H2. destruct (decide (l' = l)) as [-> | Hne];
    [| by apply field_normalize_ne].
  unfold field, normalize. destruct (h !! l) as [o|] eqn:E; [| by rewrite E].
  by rewrite lookup_insert_eq, normalize_obj_other.
Qed.

Lemma time_in_normalize l h l' f :
  time_in (normalize l h) l' f = time_in h l' f.
Proof.
  destruct (decide (l' = l)) as [-> | Hne];
    [| unfold time_in; by rewrite field_normalize_ne].
  destruct (h !! l) as [o|] eqn:E;
    [| unfold normalize; by rewrite E].
  destruct (decide (f = "startDate")) as [-> | H1].
  { unfold time_in at 1. rewrite field_normalize_startDate by eauto.
    apply timeValue_number. }
  destruct (decide (f = "endDate")) as [-> | H2].
  { unfold time_in at 1. rewrite field_normalize_endDate by eauto.
    apply timeValue_number. }
  unfold time_in. by rewrite field_normalize_other.
Qed.

Lemma time_in_normalize2 a b h l f :
  time_in (normalize b (normalize a h)) l f = time_in h l f.
Proof. by rewrite !time_in_normalize. Qed.

(** After both objects were normalised, each of the four date fields
    holds its original time value, also when the two objects are one. *)
Lemma field_normalize2_startDate a b h l :
  is_Some (h !! a) → is_Some (h !! b) → l = a ∨ l = b →
  field (normalize b (normalize a h)) l "startDate"
  = VNumber (time_in h l "startDate").
Proof.
  intros Ha Hb Hl. destruct (decide (l = b)) as [-> | Hne].
  - rewrite field_normalize_startDate by (by apply normalize_live).
    by rewrite time_in_normalize.
  - destruct Hl as [-> | ->]; [| done].
    rewrite field_normalize_ne by done. by apply field_normalize_startDate.
Qed.

Lemma field_normalize2_endDate a b h l :
  is_Some (h !! a) → is_Some (h !! b) → l = a ∨ l = b →
  field (normalize b (normalize a h)) l "endDate"
  = VNumber (time_in h l "endDate").
Proof.
  intros Ha Hb Hl. destruct (decide (l = b)) as [-> | Hne].
  - rewrite field_normalize_endDate by (by apply normalize_live).
    by rewrite time_in_normalize.
  - destruct Hl as [-> | ->]; [| done].
    rewrite field_normalize_ne by done. by apply field_normalize_endDate.
Qed.

(** The two assignments to the date fields of one object. *)
Lemma normalize_props_run {B} l h c (k : unit → M B) :
  is_Some (h !! l) →
  bind (normalize_prop l "startDate")
       (λ u, bind (normalize_prop l "endDate") k) (mkState h c)
  = k tt (mkState (normalize l h) c).
Proof.
  intros [o E]. unfold normalize_prop at 1.
  rewrite (run_bind (bind _ _) _ (mkState h c) tt
    (mkState (<[l := <["startDate" := VNumber (time_in h l "startDate")]> o]> h) c)).
  2:{ rewrite (run_reads _ _ _ _ (reads_timeOf h c l "startDate" (mk_is_Some _ _ E))).
      unfold set_prop. simpl. by rewrite E. }
  unfold normalize_prop.
  set (o1 := <["startDate" := VNumber (time_in h l "startDate")]> o).
  set (h1 := <[l := o1]> h).
  assert (E1 : h1 !! l = Some o1) by apply lookup_insert_eq.
  rewrite (run_bind (bind _ _) _ (mkState h1 c) tt
    (mkState (<[l := <["endDate" := VNumber (time_in h1 l "endDate")]> o1]> h1) c)).
  2:{ rewrite (run_reads _ _ _ _ (reads_timeOf h1 c l "endDate" (mk_is_Some _ _ E1))).
      unfold set_prop. simpl. by rewrite E1. }
  do 2 f_equal. unfold normalize. rewrite E.
  subst h1. rewrite insert_insert_eq. f_equal.
  unfold normalize_obj, time_in at 1, field. rewrite E1. subst o1.
  rewrite lookup_insert_ne by done. unfold time_in, field. by rewrite E.
Qed.

(** ** What the functions compute *)

Ltac solve_reads :=
  repeat first
    [ apply reads_orM | apply reads_andM | apply reads_lift2
    | apply (reads_lift1 isNaN) | apply reads_timeOf | apply reads_missing
    | apply reads_dateOf | apply reads_sameDay | apply reads_dayAfter
    | apply reads_dayBefore | apply reads_ret
    | eapply reads_num_prop; [| eassumption] ];
  try eassumption.

Ltac run_read := erewrite run_reads; [| solve [solve_reads] ].

(** [dateRangeOverlaps] returns the three tests on the original time
    values, normalises both objects and logs one line. *)
Lemma dateRangeOverlaps_run a b h c oa ob :
  h !! a = Some oa → h !! b = Some ob →
  dateRangeOverlaps a b (mkState h c)
  = Some (overlaps_in h a b,
          mkState (normalize b (normalize a h))
                  (c ++ [[LogObject oa; LogObject ob]])).
Proof.
  intros Ea Eb.
  assert (Ha : is_Some (h !! a)) by eauto.
  assert (Hb : is_Some (h !! b)) by eauto.
  unfold dateRangeOverlaps.
  rewrite (run_reads _ _ _ _ (reads_deref h c a oa Ea)).
  rewrite (run_reads _ _ _ _ (reads_deref h c b ob Eb)).
  rewrite (run_bind (console_log _) _ (mkState h c) tt
             (mkState h (c ++ [[LogObject oa; LogObject ob]]))) by done.
  rewrite normalize_props_run by done.
  rewrite normalize_props_run by (by apply normalize_live).
  set (h' := normalize b (normalize a h)).
  assert (Ha' : is_Some (h' !! a)) by (by apply normalize_live, normalize_live).
  assert (Hb' : is_Some (h' !! b)) by (by apply normalize_live, normalize_live).
  pose proof (field_normalize2_startDate a b h a Ha Hb (or_introl eq_refl)) as F1.
  pose proof (field_normalize2_endDate a b h a Ha Hb (or_introl eq_refl)) as F2.
  pose proof (field_normalize2_startDate a b h b Ha Hb (or_intror eq_refl)) as F3.
  pose proof (field_normalize2_endDate a b h b Ha Hb (or_intror eq_refl)) as F4.
  fold h' in F1, F2, F3, F4.
  unfold overlaps_in, overlaps.
  run_read. destruct (_ && _); [done |]; simpl.
  run_read. destruct (_ && _); [done |]; simpl.
  run_read. by destruct (_ && _).
Qed.

(** [dateRangeSplitter] always returns, and its value is [split_result]
    of the presence test and the four original time values. *)
Lemma dateRangeSplitter_run s w h c :
  is_Some (h !! s) → is_Some (h !! w) →
  ∃ st', dateRangeSplitter s w (mkState h c)
         = Some (split_result (complete h s w)
                   (time_in h s "startDate") (time_in h s "endDate")
                   (time_in h w "startDate") (time_in h w "endDate"), st').
Proof.
  intros Hs Hw. destruct (Hs) as [os Es]. destruct (Hw) as [ow Ew].
  unfold dateRangeSplitter, split_result, complete.
  run_read.
  destruct (ToBoolean (field h s "startDate")); simpl; [| by eexists].
  destruct (ToBoolean (field h s "endDate")); simpl; [| by eexists].
  destruct (ToBoolean (field h w "startDate")); simpl; [| by eexists].
  destruct (ToBoolean (field h w "endDate")); simpl; [| by eexists].
  rewrite (run_reads _ _ _ _ (reads_deref h c s os Es)).
  rewrite (run_reads _ _ _ _ (reads_deref h c w ow Ew)).
  rewrite (run_bind (console_log _) _ (mkState h c) tt
             (mkState h (c ++ [[LogObject os; LogObject ow]]))) by done.
  rewrite (run_bind _ _ _ _ _ (dateRangeOverlaps_run s w h _ os ow Es Ew)).
  unfold overlaps_in.
  pose proof (field_normalize2_startDate s w h s Hs Hw (or_introl eq_refl)) as F1.
  pose proof (field_normalize2_endDate s w h s Hs Hw (or_introl eq_refl)) as F2.
  assert (Hs' : is_Some (normalize w (normalize s h) !! s))
    by (by apply normalize_live, normalize_live).
  assert (Hw' : is_Some (normalize w (normalize s h) !! w))
    by (by apply normalize_live, normalize_live).
  pose proof (time_in_normalize2 s w h s "startDate") as T1.
  pose proof (time_in_normalize2 s w h s "endDate") as T2.
  pose proof (time_in_normalize2 s w h w "startDate") as T3.
  pose proof (time_in_normalize2 s w h w "endDate") as T4.
  revert F1 F2 Hs' Hw' T1 T2 T3 T4.
  generalize (normalize w (normalize s h)) as h'.
  generalize (time_in h s "startDate") as ss, (time_in h s "endDate") as se,
    (time_in h w "startDate") as ws,  (time_in h w "endDate") as we.
  intros ss se ws we h' F1 F2 Hs' Hw' T1 T2 T3 T4.
  destruct (overlaps ss se ws we); simpl; [| by eexists].
  run_read. rewrite ?T1, ?T2, ?T3, ?T4.
  destruct (num_gt ws we); [by eexists |].
  run_read. rewrite ?T1, ?T2, ?T3, ?T4.
  destruct (isNaN ws || isNaN we || isNaN ss || isNaN se); [by eexists |].
  run_read. rewrite ?T1, ?T2, ?T3, ?T4.
  destruct (num_lt ws ss || num_gt we (num_add se DAY_IN_MS)).
  - erewrite run_bind by reflexivity. simpl heap. simpl console.
    run_read. rewrite ?T1, ?T2, ?T3, ?T4.
    destruct (num_lt ws ss && num_le we se).
    { erewrite run_bind by reflexivity. simpl heap. simpl console.
      run_read. rewrite ?T1, ?T2, ?T3, ?T4. by eexists. }
    run_read. rewrite ?T1, ?T2, ?T3, ?T4.
    destruct (num_ge ws ss && num_le ws se && num_gt we se).
    { erewrite run_bind by reflexivity. simpl heap. simpl console.
      run_read. rewrite ?T1, ?T2, ?T3, ?T4. by eexists. }
    run_read. rewrite ?T1, ?T2, ?T3, ?T4.
    destruct (num_lt ws ss && num_gt we se); [| by eexists].
    erewrite run_bind by reflexivity. simpl heap. simpl console.
    run_read. rewrite F1, F2. by eexists.
  - erewrite run_bind by reflexivity. simpl heap. simpl console.
    run_read. rewrite ?T1, ?T2, ?T3, ?T4.
    destruct (num_eq ws ss && num_eq we se).
    { erewrite run_bind by reflexivity. by eexists. }
    run_read. rewrite ?T1, ?T2, ?T3, ?T4.
    destruct (num_eq ws ss).
    { erewrite run_bind by reflexivity. simpl heap. simpl console.
      run_read. rewrite ?T1, ?T2, ?T3, ?T4. by eexists. }
    run_read. rewrite ?T1, ?T2, ?T3, ?T4.
    destruct (num_eq we se).
    { erewrite run_bind by reflexivity. simpl heap. simpl console.
      run_read. rewrite ?T1, ?T2, ?T3, ?T4. by eexists. }
    erewrite run_bind by reflexivity. simpl heap. simpl console.
    run_read. run_read. rewrite ?T1, ?T2, ?T3, ?T4, F1, F2. by eexists.
Qed.

(** ** [dateRangeSplitter] on valid ranges *)

Lemma time_in_range h l f z :
  time_in h l f = Num z → Z.abs z ≤ MAX_TIME.
Proof.
  intros E. destruct (timeValue_cases (field h l f)) as [N | (z' & E' & Hz)];
    unfold time_in in E; [congruence |].
  assert (z' = z) by congruence. lia.
Qed.

Ltac num_cases :=
  repeat (match goal with
          | |- context [Z.ltb ?a ?b] => destruct (Z.ltb_spec a b); try lia
          | |- context [Z.leb ?a ?b] => destruct (Z.leb_spec a b); try lia
          | |- context [Z.eqb ?a ?b] => destruct (Z.eqb_spec a b); try lia
          end; cbn [negb andb orb]).

Ltac split_eval :=
  unfold split_result, overlaps, num_gt, num_ge, DAY_IN_MS;
  rewrite ?num_add_in_range, ?num_sub_in_range by lia;
  cbn [num_lt num_le num_eq isNaN negb andb orb];
  num_cases.

(** Claim C1.  When the withdrawn range starts strictly before the split
    range and ends strictly after it (all four fields present and valid
    instants, the withdrawn range ordered), [dateRangeSplitter] returns an
    array of one range whose dates are the start and the end of the split
    range. *)
Theorem dateRangeSplitter_superset st s w (ss se ws we : Z) :
  is_Some (heap st !! s) → is_Some (heap st !! w) →
  complete (heap st) s w = true →
  time_in (heap st) s "startDate" = Num ss →
  time_in (heap st) s "endDate" = Num se →
  time_in (heap st) w "startDate" = Num ws →
  time_in (heap st) w "endDate" = Num we →
  ws ≤ we → ws < ss → se < we →
  ∃ st', dateRangeSplitter s w st
         = Some (RArray [Some (mkRange (mkDate (Num ss)) (mkDate (Num se)))], st').
Proof.
  destruct st as [h c]; cbn [heap].
  intros Hs Hw Hc Ess Ese Ews Ewe Hord Hlo Hhi.
  destruct (dateRangeSplitter_run s w h c Hs Hw) as [st' E].
  exists st'. rewrite E, Hc, Ess, Ese, Ews, Ewe. do 2 f_equal.
  apply time_in_range in Ess, Ese, Ews, Ewe.
  split_eval; rewrite !new_Date_in_range by lia; reflexivity.
Qed.

(** Claim C3.  When the withdrawn range lies strictly inside the split
    range (all four fields present and valid instants, the withdrawn range
    ordered), [dateRangeSplitter] returns two ranges, in this order: from
    the start of the split range to the date built from the withdrawn
    start minus one day, and from the date built from the withdrawn end
    plus one day to the end of the split range.  (A date built from a
    time value within [±MAX_TIME] holds that time value, see
    [new_Date_in_range].) *)
Theorem dateRangeSplitter_interior st s w (ss se ws we : Z) :
  is_Some (heap st !! s) → is_Some (heap st !! w) →
  complete (heap st) s w = true →
  time_in (heap st) s "startDate" = Num ss →
  time_in (heap st) s "endDate" = Num se →
  time_in (heap st) w "startDate" = Num ws →
  time_in (heap st) w "endDate" = Num we →
  ws ≤ we → ss < ws → we < se →
  ∃ st', dateRangeSplitter s w st
         = Some (RArray
                   [Some (mkRange (mkDate (Num ss))
                                  (new_Date (VNumber (Num (ws - 86400000)))));
                    Some (mkRange (new_Date (VNumber (Num (we + 86400000))))
                                  (mkDate (Num se)))], st').
Proof.
  destruct st as [h c]; cbn [heap].
  intros Hs Hw Hc Ess Ese Ews Ewe Hord Hlo Hhi.
  destruct (dateRangeSplitter_run s w h c Hs Hw) as [st' E].
  exists st'. rewrite E, Hc, Ess, Ese, Ews, Ewe. do 2 f_equal.
  apply time_in_range in Ess, Ese, Ews, Ewe.
  split_eval; rewrite !(new_Date_in_range ss), !(new_Date_in_range se) by lia;
    reflexivity.
Qed.

(** Claim C4.  When the withdrawn range has the same start and the same
    end as the split range (fields present, valid instants, ordered),
    [dateRangeSplitter] returns the array holding one [null], which is not
    the empty array. *)
Theorem dateRangeSplitter_equal st s w (ss se : Z) :
  is_Some (heap st !! s) → is_Some (heap st !! w) →
  complete (heap st) s w = true →
  time_in (heap st) s "startDate" = Num ss →
  time_in (heap st) s "endDate" = Num se →
  time_in (heap st) w "startDate" = Num ss →
  time_in (heap st) w "endDate" = Num se →
  ss ≤ se →
  (∃ st', dateRangeSplitter s w st = Some (RArray [None], st'))
  ∧ RArray [None] ≠ RArray [].
Proof.
  destruct st as [h c]; cbn [heap].
  intros Hs Hw Hc Ess Ese Ews Ewe Hord. split; [| done].
  destruct (dateRangeSplitter_run s w h c Hs Hw) as [st' E].
  exists st'. rewrite E, Hc, Ess, Ese, Ews, Ewe. do 2 f_equal.
  apply time_in_range in Ess, Ese.
  by split_eval.
Qed.

(** Claim C6.  When the withdrawn range starts with the split range and
    ends exactly one day after it, the two ranges overlap, the test that
    opens branch 1 is false, the test for equal ranges is false and the
    test for equal starts is true; [dateRangeSplitter] returns one range
    that starts two days after the end of the split range and ends at the
    end of the split range, so its start is later than its end. *)
Theorem dateRangeSplitter_inverted st s w (ss se : Z) :
  is_Some (heap st !! s) → is_Some (heap st !! w) →
  complete (heap st) s w = true →
  time_in (heap st) s "startDate" = Num ss →
  time_in (heap st) s "endDate" = Num se →
  time_in (heap st) w "startDate" = Num ss →
  time_in (heap st) w "endDate" = Num (se + 86400000) →
  ss ≤ se → se + 2 * 86400000 ≤ MAX_TIME →
  overlaps_in (heap st) s w = true
  ∧ num_lt (Num ss) (Num ss)
    || num_gt (Num (se + 86400000)) (num_add (Num se) DAY_IN_MS) = false
  ∧ num_eq (Num ss) (Num ss) && num_eq (Num (se + 86400000)) (Num se) = false
  ∧ num_eq (Num ss) (Num ss) = true
  ∧ ∃ r st',
      dateRangeSplitter s w st = Some (RArray [Some r], st')
      ∧ r = mkRange (mkDate (Num (se + 2 * 86400000))) (mkDate (Num se))
      ∧ num_gt (getTime (startDate r)) (getTime (endDate r)) = true.
Proof.
  destruct st as [h c]; cbn [heap].
  intros Hs Hw Hc Ess Ese Ews Ewe Hord Hmax.
  destruct (dateRangeSplitter_run s w h c Hs Hw) as [st' E].
  unfold overlaps_in. rewrite Hc, Ess, Ese, Ews, Ewe in *.
  apply time_in_range in Ess, Ese, Ewe.
  split; [by split_eval |]. split; [by split_eval |].
  split; [by split_eval |]. split; [by split_eval |].
  eexists _, st'. split; [| split; [reflexivity |]].
  - rewrite E. do 2 f_equal.
    split_eval; rewrite !new_Date_in_range by lia.
    by replace (se + 86400000 + 1000 * 60 * 60 * 24) with (se + 2 * 86400000) by lia.
  - simpl. lia.
Qed.

(** ** The shapes of the result *)

Ltac shape_leaf :=
  eexists; split; [reflexivity |];
  split; [unfold shape; eauto 10 | unfold rejected; try done; intuition (discriminate || lia)].

Lemma split_result_shape present v1 v2 v3 v4 :
  ∃ r, split_result present (timeValue v1) (timeValue v2)
                            (timeValue v3) (timeValue v4) = RArray r
       ∧ shape r
       ∧ (rejected present (timeValue v1) (timeValue v2)
                           (timeValue v3) (timeValue v4) → r = []).
Proof.
  destruct present; [| by shape_leaf].
  destruct (timeValue_cases v1) as [-> | (ss & -> & Hss)],
           (timeValue_cases v2) as [-> | (se & -> & Hse)],
           (timeValue_cases v3) as [-> | (ws & -> & Hws)],
           (timeValue_cases v4) as [-> | (we & -> & Hwe)].
  all: try (unfold split_result;
            match goal with
            | |- context [negb (overlaps ?a ?b ?c ?d)] =>
                destruct (overlaps a b c d)
            end;
            cbn [negb]; [| by shape_leaf];
            match goal with
            | |- context [if num_gt ?a ?b then _ else _] => destruct (num_gt a b)
            end;
            cbn [isNaN orb]; by shape_leaf).
  unfold rejected. split_eval; shape_leaf.
Qed.

(** Claim C2.  On any two live range objects [dateRangeSplitter] returns
    (no exception), its value is an array that is empty, or holds one
    [null], or one range, or two ranges, and it is the empty array
    whenever a field fails the presence test, the ranges do not overlap,
    the withdrawn range is reversed, or a date is not a valid instant. *)
Theorem dateRangeSplitter_shapes st s w :
  is_Some (heap st !! s) → is_Some (heap st !! w) →
  ∃ r st',
    dateRangeSplitter s w st = Some (RArray r, st')
    ∧ (r = [] ∨ r = [None] ∨ (∃ x, r = [Some x]) ∨ (∃ x y, r = [Some x; Some y]))
    ∧ (complete (heap st) s w = false
       ∨ overlaps_in (heap st) s w = false
       ∨ num_gt (time_in (heap st) w "startDate")
                (time_in (heap st) w "endDate") = true
       ∨ isNaN (time_in (heap st) s "startDate") = true
       ∨ isNaN (time_in (heap st) s "endDate") = true
       ∨ isNaN (time_in (heap st) w "startDate") = true
       ∨ isNaN (time_in (heap st) w "endDate") = true
       → r = []).
Proof.
  destruct st as [h c]; cbn [heap]. intros Hs Hw.
  destruct (dateRangeSplitter_run s w h c Hs Hw) as [st' E].
  destruct (split_result_shape (complete h s w)
              (field h s "startDate") (field h s "endDate")
              (field h w "startDate") (field h w "endDate"))
    as (r & Er & Hshape & Hrej).
  exists r, st'. split; [by rewrite E; unfold time_in; rewrite Er |].
  split; [exact Hshape | exact Hrej].
Qed.

(** ** [dateRangeOverlaps]: invalid dates, symmetry, mutation *)

Lemma num_le_NaN_l x : num_le NaN x = false.
Proof. done. Qed.

Lemma num_le_NaN_r x : num_le x NaN = false.
Proof. by destruct x. Qed.

Lemma num_lt_NaN_l x : num_lt NaN x = false.
Proof. done. Qed.

Lemma num_lt_NaN_r x : num_lt x NaN = false.
Proof. by destruct x. Qed.

(** On ordered ranges the three tests amount to the symmetric overlap
    test; they can only disagree when a range is reversed. *)
Lemma overlaps_ordered_sym (s1 e1 s2 e2 : Z) :
  s1 ≤ e1 → s2 ≤ e2 →
  overlaps (Num s1) (Num e1) (Num s2) (Num e2)
  = overlaps (Num s2) (Num e2) (Num s1) (Num e1).
Proof.
  intros H1 H2. unfold overlaps. cbn [num_lt num_le]. by num_cases.
Qed.

(** Claim C5.  [dateRangeOverlaps] is not symmetric: for the reversed
    range from 5 to 1 January and the one-day range of 3 January, whose
    four fields are present and valid instants, it answers [true] one way
    round and [false] the other way round. *)
Theorem dateRangeOverlaps_asymmetric :
  ∃ st a b,
    is_Some (heap st !! a) ∧ is_Some (heap st !! b)
    ∧ complete (heap st) a b = true
    ∧ isNaN (time_in (heap st) a "startDate") = false
    ∧ isNaN (time_in (heap st) a "endDate") = false
    ∧ isNaN (time_in (heap st) b "startDate") = false
    ∧ isNaN (time_in (heap st) b "endDate") = false
    ∧ fst <$> dateRangeOverlaps a b st = Some true
    ∧ fst <$> dateRangeOverlaps b a st = Some false.
Proof.
  exists (two_ranges (range (onDay 5) (onDay 1)) (range (onDay 3) (onDay 3))),
         1%positive, 2%positive.
  repeat split; try (eexists; reflexivity); vm_compute; reflexivity.
Qed.

Lemma dateRangeOverlaps_value a b h c :
  is_Some (h !! a) → is_Some (h !! b) →
  fst <$> dateRangeOverlaps a b (mkState h c) = Some (overlaps_in h a b).
Proof.
  intros [oa Ea] [ob Eb]. by rewrite (dateRangeOverlaps_run a b h c oa ob).
Qed.

Ltac nan_simpl :=
  rewrite ?num_le_NaN_l, ?num_le_NaN_r, ?num_lt_NaN_l, ?num_lt_NaN_r;
  rewrite ?andb_false_r; cbn [andb orb]; rewrite ?orb_false_r.

(** Claim C7, as amended.  [dateRangeOverlaps] always returns on live
    objects.  It returns [false] when a date of the first range is not a
    valid instant, or when both dates of the second range are not.  When
    only the end of the second range is invalid the result is whether its
    start lies within the first range, and conversely. *)
Theorem dateRangeOverlaps_unparseable st a b :
  is_Some (heap st !! a) → is_Some (heap st !! b) →
  ∃ r st',
    dateRangeOverlaps a b st = Some (r, st')
    ∧ (time_in (heap st) a "startDate" = NaN
       ∨ time_in (heap st) a "endDate" = NaN
       ∨ (time_in (heap st) b "startDate" = NaN
          ∧ time_in (heap st) b "endDate" = NaN) → r = false)
    ∧ (time_in (heap st) b "endDate" = NaN →
       r = num_le (time_in (heap st) a "startDate") (time_in (heap st) b "startDate")
           && num_le (time_in (heap st) b "startDate") (time_in (heap st) a "endDate"))
    ∧ (time_in (heap st) b "startDate" = NaN →
       r = num_le (time_in (heap st) a "startDate") (time_in (heap st) b "endDate")
           && num_le (time_in (heap st) b "endDate") (time_in (heap st) a "endDate")).
Proof.
  destruct st as [h c]; cbn [heap]. intros [oa Ea] [ob Eb].
  eexists _, _. split; [by apply dateRangeOverlaps_run |].
  unfold overlaps_in, overlaps.
  split; [| split].
  - intros [-> | [-> | [-> ->]]]; by nan_simpl.
  - intros ->. by nan_simpl.
  - intros ->. by nan_simpl.
Qed.

Lemma prop_of_normalize l h l' f :
  ¬ (l' = l ∧ (f = "startDate" ∨ f = "endDate")) →
  prop_of (normalize l h) l' f = prop_of h l' f.
Proof.
  intros Hn. unfold prop_of, normalize.
  destruct (h !! l) as [o|] eqn:E; [| done].
  destruct (decide (l' = l)) as [-> | Hne]; [| by rewrite lookup_insert_ne].
  rewrite lookup_insert_eq, E. simpl.
  apply normalize_obj_other; intros ->; apply Hn; auto.
Qed.

(** Claim C10.  A call [dateRangeOverlaps(a, b)] leaves in the start and
    end fields of both objects the time values of what they held, and
    nothing else in the store changes: every other property of every
    object reads as before and the same objects are live.  The call also
    prints its two arguments on the console. *)
Theorem dateRangeOverlaps_mutation st a b oa ob :
  heap st !! a = Some oa → heap st !! b = Some ob →
  ∃ r st',
    dateRangeOverlaps a b st = Some (r, st')
    ∧ (∀ l, l = a ∨ l = b →
         field (heap st') l "startDate" = VNumber (time_in (heap st) l "startDate")
         ∧ field (heap st') l "endDate" = VNumber (time_in (heap st) l "endDate"))
    ∧ (∀ l f, ¬ ((l = a ∨ l = b) ∧ (f = "startDate" ∨ f = "endDate")) →
         prop_of (heap st') l f = prop_of (heap st) l f)
    ∧ (∀ l, is_Some (heap st' !! l) ↔ is_Some (heap st !! l))
    ∧ console st' = console st ++ [[LogObject oa; LogObject ob]].
Proof.
  destruct st as [h c]; cbn [heap console]. intros Ea Eb.
  assert (Ha : is_Some (h !! a)) by eauto.
  assert (Hb : is_Some (h !! b)) by eauto.
  eexists _, _. split; [by apply dateRangeOverlaps_run |].
  cbn [heap console]. split; [| split; [| split; [| done]]].
  - intros l Hl. split.
    + by apply field_normalize2_startDate.
    + by apply field_normalize2_endDate.
  - intros l f Hn. rewrite !prop_of_normalize; [done | |]; intros [-> Hf];
      apply Hn; auto.
  - intros l. by rewrite !normalize_live.
Qed.

(** ** [checkAvailabibility] *)

Lemma indexOf_from_app i visited x rest :
  x ∉ visited →
  indexOf_from i (visited ++ x :: rest) x = i + Z.of_nat (length visited).
Proof.
  revert i. induction visited as [| y visited IH]; intros i Hx; simpl.
  - rewrite decide_True by done. lia.
  - rewrite decide_False by (intros ->; apply Hx; left).
    rewrite IH by (intros H; apply Hx; by right). lia.
Qed.

Lemma checkAvailabibility_loop_spec h b array :
  is_Some (h !! b) → (∀ a, a ∈ array → is_Some (h !! a)) →
  ∀ todo visited h' c',
    array = visited ++ todo →
    (∀ l, is_Some (h' !! l) ↔ is_Some (h !! l)) →
    (∀ l f, time_in h' l f = time_in h l f) →
    (∀ a, a ∈ visited → overlaps_in h a b = false) →
    ∃ r st',
      checkAvailabibility_loop array todo b (mkState h' c') = Some (r, st')
      ∧ first_overlap h array b r.
Proof.
  intros Hb Hlive. induction todo as [| dr todo IH];
    intros visited h' c' Harr Hl Ht Hv.
  - exists (-1), (mkState h' c'). split; [done |]. left. split; [done |].
    intros a Ha. apply Hv. by rewrite Harr, app_nil_r in Ha.
  - assert (Hdr : dr ∈ array) by (rewrite Harr; apply elem_of_app; right; left).
    destruct (proj2 (Hl dr) (Hlive dr Hdr)) as [o Eo].
    destruct (proj2 (Hl b) Hb) as [ob Eb].
    cbn [checkAvailabibility_loop].
    rewrite (run_bind _ _ _ _ _ (dateRangeOverlaps_run dr b h' c' o ob Eo Eb)).
    assert (Eov : overlaps_in h' dr b = overlaps_in h dr b)
      by (unfold overlaps_in; by rewrite !Ht).
    rewrite Eov. destruct (overlaps_in h dr b) eqn:Hov.
    + eexists _, _. split; [reflexivity |]. right.
      assert (Hnv : dr ∉ visited) by (intros Hin; apply Hv in Hin; congruence).
      exists (length visited), dr. split; [| split; [| split; [done |]]].
      * unfold indexOf. rewrite Harr, indexOf_from_app by done. lia.
      * rewrite Harr. by rewrite lookup_app_r, Nat.sub_diag by lia.
      * intros j a' Hj Ha'. apply Hv.
        rewrite Harr, lookup_app_l in Ha' by done.
        by eapply list_elem_of_lookup_2.
    + apply (IH (visited ++ [dr])).
      * by rewrite <- app_assoc.
      * intros l. by rewrite !normalize_live.
      * intros l f. by rewrite time_in_normalize2.
      * intros a Ha. apply elem_of_app in Ha as [Ha | Ha]; [by apply Hv |].
        apply list_elem_of_singleton in Ha. by subst a.
Qed.

(** Claim C8.  On an array of live range objects [checkAvailabibility]
    returns; the result is [-1] when no element overlaps the candidate
    under [dateRangeOverlaps] (in particular for the empty array), and
    otherwise the position of an element that overlaps it and before
    which no element does. *)
Theorem checkAvailabibility_first st array b :
  (∀ a, a ∈ array → is_Some (heap st !! a)) → is_Some (heap st !! b) →
  ∃ r st',
    checkAvailabibility array b st = Some (r, st')
    ∧ (array = [] → r = -1)
    ∧ ((r = -1
        ∧ ∀ a, a ∈ array → fst <$> dateRangeOverlaps a b st = Some false)
       ∨ ∃ (i : nat) a,
           r = Z.of_nat i ∧ array !! i = Some a
           ∧ fst <$> dateRangeOverlaps a b st = Some true
           ∧ ∀ (j : nat) a', (j < i)%nat → array !! j = Some a' →
               fst <$> dateRangeOverlaps a' b st = Some false).
Proof.
  destruct st as [h c]; cbn [heap]. intros Hlive Hb.
  destruct (checkAvailabibility_loop_spec h b array Hb Hlive array [] h c)
    as (r & st' & E & Hr); [done | done | done | by intros a Ha%elem_of_nil |].
  exists r, st'. split; [exact E |]. split.
  - intros ->. simpl in E. unfold ret in E. congruence.
  - destruct Hr as [[-> Hno] | (i & a & -> & Hi & Hov & Hbefore)].
    + left. split; [done |]. intros a Ha.
      rewrite dateRangeOverlaps_value by auto. by rewrite Hno.
    + right. exists i, a. split; [done |]. split; [done |].
      assert (Ha : a ∈ array) by (by eapply list_elem_of_lookup_2).
      split; [rewrite dateRangeOverlaps_value by auto; by rewrite Hov |].
      intros j a' Hj Ha'.
      assert (a' ∈ array) by (by eapply list_elem_of_lookup_2).
      rewrite dateRangeOverlaps_value by auto. by rewrite (Hbefore j a').
Qed.

(** ** [compareDateRanges] *)

Lemma compareDateRanges_run dr1 dr2 h c :
  is_Some (h !! dr1) → is_Some (h !! dr2) →
  compareDateRanges dr1 dr2 (mkState h c)
  = Some (compare_result (complete h dr1 dr2)
            (time_in h dr1 "startDate") (time_in h dr1 "endDate")
            (time_in h dr2 "startDate") (time_in h dr2 "endDate"),
          mkState h c).
Proof.
  intros H1 H2. unfold compareDateRanges, compare_result, complete.
  run_read.
  destruct (ToBoolean (field h dr1 "startDate")); [| done].
  destruct (ToBoolean (field h dr1 "endDate")); [| done].
  destruct (ToBoolean (field h dr2 "startDate")); [| done].
  destruct (ToBoolean (field h dr2 "endDate")); [| done].
  cbn [negb andb orb].
  do 4 run_read.
  destruct (num_lt _ _); [done |]. by destruct (num_gt _ _).
Qed.

(** Claim C9.  When all four date fields pass the presence test and none
    is a valid instant, [compareDateRanges] returns [0]; it returns [null]
    exactly when a field fails the presence test. *)
Theorem compareDateRanges_unparseable st dr1 dr2 :
  is_Some (heap st !! dr1) → is_Some (heap st !! dr2) →
  (complete (heap st) dr1 dr2 = true →
   time_in (heap st) dr1 "startDate" = NaN →
   time_in (heap st) dr1 "endDate" = NaN →
   time_in (heap st) dr2 "startDate" = NaN →
   time_in (heap st) dr2 "endDate" = NaN →
   compareDateRanges dr1 dr2 st = Some (Some 0, st))
  ∧ (compareDateRanges dr1 dr2 st = Some (None, st)
     ↔ complete (heap st) dr1 dr2 = false).
Proof.
  destruct st as [h c]; cbn [heap]. intros H1 H2.
  rewrite (compareDateRanges_run dr1 dr2 h c H1 H2). split.
  - intros -> -> -> -> ->. reflexivity.
  - unfold compare_result. destruct (complete h dr1 dr2); cbn [negb].
    + split; [| done]. intros E.
      destruct (num_lt _ _); [done |]. by destruct (num_gt _ _).
    + done.
Qed.

(** ** The store after [dateRangeSplitter] *)

Lemma dateRangeSplitter_run_state s w h c :
  is_Some (h !! s) → is_Some (h !! w) →
  ∃ c', dateRangeSplitter s w (mkState h c)
        = Some (split_result (complete h s w)
                  (time_in h s "startDate") (time_in h s "endDate")
                  (time_in h w "startDate") (time_in h w "endDate"),
                mkState (if complete h s w then normalize w (normalize s h)
                         else h) c').
Proof.
  intros Hs Hw. destruct (Hs) as [os Es]. destruct (Hw) as [ow Ew].
  unfold dateRangeSplitter, split_result, complete.
  run_read.
  destruct (ToBoolean (field h s "startDate")); simpl; [| by eexists].
  destruct (ToBoolean (field h s "endDate")); simpl; [| by eexists].
  destruct (ToBoolean (field h w "startDate")); simpl; [| by eexists].
  destruct (ToBoolean (field h w "endDate")); simpl; [| by eexists].
  rewrite (run_reads _ _ _ _ (reads_deref h c s os Es)).
  rewrite (run_reads _ _ _ _ (reads_deref h c w ow Ew)).
  rewrite (run_bind (console_log _) _ (mkState h c) tt
             (mkState h (c ++ [[LogObject os; LogObject ow]]))) by done.
  rewrite (run_bind _ _ _ _ _ (dateRangeOverlaps_run s w h _ os ow Es Ew)).
  unfold overlaps_in.
  pose proof (field_normalize2_startDate s w h s Hs Hw (or_introl eq_refl)) as F1.
  pose proof (field_normalize2_endDate s w h s Hs Hw (or_introl eq_refl)) as F2.
  assert (Hs' : is_Some (normalize w (normalize s h) !! s))
    by (by apply normalize_live, normalize_live).
  assert (Hw' : is_Some (normalize w (normalize s h) !! w))
    by (by apply normalize_live, normalize_live).
  pose proof (time_in_normalize2 s w h s "startDate") as T1.
  pose proof (time_in_normalize2 s w h s "endDate") as T2.
  pose proof (time_in_normalize2 s w h w "startDate") as T3.
  pose proof (time_in_normalize2 s w h w "endDate") as T4.
  revert F1 F2 Hs' Hw' T1 T2 T3 T4.
  generalize (normalize w (normalize s h)) as h'.
  generalize (time_in h s "startDate") as ss, (time_in h s "endDate") as se,
    (time_in h w "startDate") as ws,  (time_in h w "endDate") as we.
  intros ss se ws we h' F1 F2 Hs' Hw' T1 T2 T3 T4.
  destruct (overlaps ss se ws we); simpl; [| by eexists].
  run_read. rewrite ?T1, ?T2, ?T3, ?T4.
  destruct (num_gt ws we); [by eexists |].
  run_read. rewrite ?T1, ?T2, ?T3, ?T4.
  destruct (isNaN ws || isNaN we || isNaN ss || isNaN se); [by eexists |].
  run_read. rewrite ?T1, ?T2, ?T3, ?T4.
  destruct (num_lt ws ss || num_gt we (num_add se DAY_IN_MS)).
  - erewrite run_bind by reflexivity. simpl heap. simpl console.
    run_read. rewrite ?T1, ?T2, ?T3, ?T4.
    destruct (num_lt ws ss && num_le we se).
    { erewrite run_bind by reflexivity. simpl heap. simpl console.
      run_read. rewrite ?T1, ?T2, ?T3, ?T4. by eexists. }
    run_read. rewrite ?T1, ?T2, ?T3, ?T4.
    destruct (num_ge ws ss && num_le ws se && num_gt we se).
    { erewrite run_bind by reflexivity. simpl heap. simpl console.
      run_read. rewrite ?T1, ?T2, ?T3, ?T4. by eexists. }
    run_read. rewrite ?T1, ?T2, ?T3, ?T4.
    destruct (num_lt ws ss && num_gt we se); [| by eexists].
    erewrite run_bind by reflexivity. simpl heap. simpl console.
    run_read. rewrite F1, F2. by eexists.
  - erewrite run_bind by reflexivity. simpl heap. simpl console.
    run_read. rewrite ?T1, ?T2, ?T3, ?T4.
    destruct (num_eq ws ss && num_eq we se).
    { erewrite run_bind by reflexivity. by eexists. }
    run_read. rewrite ?T1, ?T2, ?T3, ?T4.
    destruct (num_eq ws ss).
    { erewrite run_bind by reflexivity. simpl heap. simpl console.
      run_read. rewrite ?T1, ?T2, ?T3, ?T4. by eexists. }
    run_read. rewrite ?T1, ?T2, ?T3, ?T4.
    destruct (num_eq we se).
    { erewrite run_bind by reflexivity. simpl heap. simpl console.
      run_read. rewrite ?T1, ?T2, ?T3, ?T4. by eexists. }
    erewrite run_bind by reflexivity. simpl heap. simpl console.
    run_read. run_read. rewrite ?T1, ?T2, ?T3, ?T4, F1, F2. by eexists.
Qed.

(** [dateRangeSplitter] leaves the store as it found it when a field
    fails the presence test; otherwise it leaves it as the call of
    [dateRangeOverlaps] on its two arguments does, with the four date
    fields turned into numbers. *)
Theorem dateRangeSplitter_store st s w :
  is_Some (heap st !! s) → is_Some (heap st !! w) →
  ∃ r st',
    dateRangeSplitter s w st = Some (r, st')
    ∧ (complete (heap st) s w = false → heap st' = heap st)
    ∧ (complete (heap st) s w = true →
       ∃ b st1, dateRangeOverlaps s w st = Some (b, st1) ∧ heap st' = heap st1).
Proof.
  destruct st as [h c]; cbn [heap]. intros Hs Hw.
  destruct (dateRangeSplitter_run_state s w h c Hs Hw) as [c' E].
  eexists _, _. split; [exact E |]. cbn [heap].
  destruct (complete h s w); split; try done. intros _.
  destruct Hs as [os Es], Hw as [ow Ew].
  eexists _, _. split; [by apply dateRangeOverlaps_run |]. done.
Qed.

(** ** Calling again on normalised objects *)

Lemma TimeClip_time_in h l f : TimeClip (time_in h l f) = time_in h l f.
Proof. apply TimeClip_idem. Qed.

Lemma normalize_fixed l h t1 t2 :
  is_Some (h !! l) →
  field h l "startDate" = VNumber t1 → TimeClip t1 = t1 →
  field h l "endDate" = VNumber t2 → TimeClip t2 = t2 →
  normalize l h = h.
Proof.
  intros [o E] F1 C1 F2 C2. unfold field in F1, F2. rewrite E in F1, F2.
  unfold normalize. rewrite E. apply insert_id. rewrite E. f_equal. symmetry.
  unfold normalize_obj. rewrite F1, F2.
  change (timeValue (VNumber t1)) with (TimeClip t1).
  change (timeValue (VNumber t2)) with (TimeClip t2).
  rewrite C1, C2.
  destruct (o !! "startDate") as [v1 |] eqn:E1; [| done].
  destruct (o !! "endDate") as [v2 |] eqn:E2; [| done].
  simpl in F1, F2. subst v1 v2.
  rewrite (insert_id o "startDate") by done. by apply insert_id.
Qed.

Lemma normalize2_fixed a b h l :
  is_Some (h !! a) → is_Some (h !! b) → l = a ∨ l = b →
  normalize l (normalize b (normalize a h)) = normalize b (normalize a h).
Proof.
  intros Ha Hb Hl.
  apply (normalize_fixed l _ (time_in h l "startDate") (time_in h l "endDate")).
  - apply normalize_live, normalize_live. by destruct Hl as [-> | ->].
  - by apply field_normalize2_startDate.
  - apply TimeClip_time_in.
  - by apply field_normalize2_endDate.
  - apply TimeClip_time_in.
Qed.

Lemma complete_normalize2 a b h :
  is_Some (h !! a) → is_Some (h !! b) →
  complete (normalize b (normalize a h)) a b = truthy_times h a b.
Proof.
  intros Ha Hb. unfold complete, truthy_times.
  by rewrite !field_normalize2_startDate, !field_normalize2_endDate by auto.
Qed.

Lemma ToBoolean_timeValue v :
  ToBoolean (VNumber (timeValue v)) = false ↔ invalid_or_epoch (timeValue v).
Proof.
  unfold invalid_or_epoch.
  destruct (timeValue_cases v) as [-> | (z & -> & _)]; cbn [ToBoolean].
  - split; auto.
  - destruct (Z.eqb_spec z 0) as [-> | Hz]; cbn [negb].
    + split; auto.
    + split; [done |]. intros [|]; congruence.
Qed.

Lemma truthy_times_false h a b :
  truthy_times h a b = false
  ↔ invalid_or_epoch (time_in h a "startDate")
    ∨ invalid_or_epoch (time_in h a "endDate")
    ∨ invalid_or_epoch (time_in h b "startDate")
    ∨ invalid_or_epoch (time_in h b "endDate").
Proof.
  unfold truthy_times, time_in.
  rewrite !andb_false_iff, !ToBoolean_timeValue. tauto.
Qed.

Lemma split_result_NaN present ss se ws we :
  isNaN ss || isNaN se || isNaN ws || isNaN we = true →
  split_result present ss se ws we = RArray [].
Proof.
  intros H. unfold split_result.
  destruct present; [| done]. cbn [negb].
  destruct (overlaps ss se ws we); [| done]. cbn [negb].
  destruct (num_gt ws we); [done |].
  assert (isNaN ws || isNaN we || isNaN ss || isNaN se = true) as ->; [| done].
  by destruct ss, se, ws, we.
Qed.

(** A second call of [dateRangeOverlaps] on the same two objects, in
    either order, finds the fields already normalised: it changes nothing
    in the store, and with the arguments in the same order it gives the
    same answer. *)
Theorem dateRangeOverlaps_twice st a b :
  is_Some (heap st !! a) → is_Some (heap st !! b) →
  ∃ r st1 st2 r' st3,
    dateRangeOverlaps a b st = Some (r, st1)
    ∧ dateRangeOverlaps a b st1 = Some (r, st2) ∧ heap st2 = heap st1
    ∧ dateRangeOverlaps b a st1 = Some (r', st3) ∧ heap st3 = heap st1.
Proof.
  destruct st as [h c]; cbn [heap]. intros Ha Hb.
  destruct (Ha) as [oa Ea], (Hb) as [ob Eb].
  set (h1 := normalize b (normalize a h)).
  assert (Ha1 : is_Some (h1 !! a)) by (by apply normalize_live, normalize_live).
  assert (Hb1 : is_Some (h1 !! b)) by (by apply normalize_live, normalize_live).
  destruct (Ha1) as [oa1 Ea1], (Hb1) as [ob1 Eb1].
  eexists _, _, _, _, _.
  split; [by apply dateRangeOverlaps_run |].
  split; [| split; [| split]].
  - rewrite (dateRangeOverlaps_run a b h1 _ oa1 ob1 Ea1 Eb1).
    unfold overlaps_in, h1. by rewrite !time_in_normalize2.
  - cbn [heap]. subst h1.
    rewrite (normalize2_fixed a b h a) by auto.
    by rewrite (normalize2_fixed a b h b) by auto.
  - by apply dateRangeOverlaps_run.
  - cbn [heap]. subst h1.
    rewrite (normalize2_fixed a b h b) by auto.
    by rewrite (normalize2_fixed a b h a) by auto.
Qed.

(** Once [dateRangeOverlaps] has run on two ranges, a boundary at the
    epoch (time value [0]) is stored as the number [0], which fails the
    presence test: [dateRangeSplitter] then returns the empty array,
    whatever it would have returned before. *)
Theorem dateRangeSplitter_after_overlaps_epoch st s w :
  is_Some (heap st !! s) → is_Some (heap st !! w) →
  time_in (heap st) s "startDate" = Num 0
  ∨ time_in (heap st) s "endDate" = Num 0
  ∨ time_in (heap st) w "startDate" = Num 0
  ∨ time_in (heap st) w "endDate" = Num 0 →
  ∃ b st1 st2,
    dateRangeOverlaps s w st = Some (b, st1)
    ∧ dateRangeSplitter s w st1 = Some (RArray [], st2).
Proof.
  destruct st as [h c]; cbn [heap]. intros Hs Hw H0.
  destruct (Hs) as [os Es], (Hw) as [ow Ew].
  set (h1 := normalize w (normalize s h)).
  assert (Hs1 : is_Some (h1 !! s)) by (by apply normalize_live, normalize_live).
  assert (Hw1 : is_Some (h1 !! w)) by (by apply normalize_live, normalize_live).
  destruct (dateRangeSplitter_run s w h1 (c ++ [[LogObject os; LogObject ow]])
              Hs1 Hw1) as [st2 E].
  subst h1.
  eexists _, _, st2. split; [by apply dateRangeOverlaps_run |].
  rewrite E. do 2 f_equal.
  rewrite complete_normalize2 by done.
  assert (truthy_times h s w = false) as ->; [| done].
  apply truthy_times_false. unfold invalid_or_epoch. tauto.
Qed.

(** When the four fields pass the presence test and no boundary is at
    the epoch, [dateRangeSplitter] returns after a call of
    [dateRangeOverlaps] on the same objects what it returns without it. *)
Theorem dateRangeSplitter_after_overlaps_same st s w :
  is_Some (heap st !! s) → is_Some (heap st !! w) →
  complete (heap st) s w = true →
  time_in (heap st) s "startDate" ≠ Num 0 →
  time_in (heap st) s "endDate" ≠ Num 0 →
  time_in (heap st) w "startDate" ≠ Num 0 →
  time_in (heap st) w "endDate" ≠ Num 0 →
  ∃ b st1,
    dateRangeOverlaps s w st = Some (b, st1)
    ∧ fst <$> dateRangeSplitter s w st1 = fst <$> dateRangeSplitter s w st.
Proof.
  destruct st as [h c]; cbn [heap]. intros Hs Hw Hc N1 N2 N3 N4.
  destruct (Hs) as [os Es], (Hw) as [ow Ew].
  set (h1 := normalize w (normalize s h)).
  assert (Hs1 : is_Some (h1 !! s)) by (by apply normalize_live, normalize_live).
  assert (Hw1 : is_Some (h1 !! w)) by (by apply normalize_live, normalize_live).
  destruct (dateRangeSplitter_run s w h1 (c ++ [[LogObject os; LogObject ow]])
              Hs1 Hw1) as [st2 E1].
  destruct (dateRangeSplitter_run s w h c Hs Hw) as [st0 E0].
  subst h1.
  eexists _, _. split; [by apply dateRangeOverlaps_run |].
  rewrite E1, E0, Hc. cbn [fmap option_fmap option_map fst]. f_equal.
  rewrite complete_normalize2, !time_in_normalize2 by done.
  destruct (truthy_times h s w) eqn:Et; [done |].
  apply truthy_times_false in Et. unfold invalid_or_epoch in Et.
  rewrite !split_result_NaN; [done | |];
    destruct Et as [[-> |] | [[-> |] | [[-> |] | [-> |]]]];
    try done; rewrite ?orb_true_r; done.
Qed.

(** After a call of [dateRangeOverlaps] on two ranges,
    [compareDateRanges] on them returns [null] exactly when one of the
    four dates is invalid or is the epoch: the number now stored in that
    field fails the presence test. *)
Theorem compareDateRanges_after_overlaps st dr1 dr2 :
  is_Some (heap st !! dr1) → is_Some (heap st !! dr2) →
  ∃ b st1,
    dateRangeOverlaps dr1 dr2 st = Some (b, st1)
    ∧ (compareDateRanges dr1 dr2 st1 = Some (None, st1)
       ↔ invalid_or_epoch (time_in (heap st) dr1 "startDate")
         ∨ invalid_or_epoch (time_in (heap st) dr1 "endDate")
         ∨ invalid_or_epoch (time_in (heap st) dr2 "startDate")
         ∨ invalid_or_epoch (time_in (heap st) dr2 "endDate")).
Proof.
  destruct st as [h c]; cbn [heap]. intros H1 H2.
  destruct (H1) as [o1 E1], (H2) as [o2 E2].
  eexists _, _. split; [by apply dateRangeOverlaps_run |].
  rewrite compareDateRanges_run by (by apply normalize_live, normalize_live).
  rewrite complete_normalize2 by done.
  rewrite <- truthy_times_false. unfold compare_result.
  destruct (truthy_times h dr1 dr2); cbn [negb]; [| done].
  split; [| done]. intros E.
  destruct (num_lt _ _); [done |]. by destruct (num_gt _ _).
Qed.

(** ** [dateRangeSplitter]: the remaining cases *)

(** Same start: when the withdrawn range starts with the split range and
    ends elsewhere, at most one day after its end, the result is the one
    range from the withdrawn end plus one day to the end of the split
    range. *)
Theorem dateRangeSplitter_same_start st s w (ss se ws we : Z) :
  is_Some (heap st !! s) → is_Some (heap st !! w) →
  complete (heap st) s w = true →
  time_in (heap st) s "startDate" = Num ss →
  time_in (heap st) s "endDate" = Num se →
  time_in (heap st) w "startDate" = Num ws →
  time_in (heap st) w "endDate" = Num we →
  ws = ss → ss ≤ se → ss ≤ we → we ≠ se → we ≤ se + 86400000 →
  ∃ st', dateRangeSplitter s w st
         = Some (RArray [Some (mkRange (new_Date (VNumber (Num (we + 86400000))))
                                       (mkDate (Num se)))], st').
Proof.
  destruct st as [h c]; cbn [heap].
  intros Hs Hw Hc Ess Ese Ews Ewe.
  intros -> H1 H2 H3 H4.
  destruct (dateRangeSplitter_run s w h c Hs Hw) as [st' E].
  exists st'. rewrite E, Hc, Ess, Ese, Ews, Ewe. do 2 f_equal.
  apply time_in_range in Ess, Ese, Ewe.
  split_eval; rewrite !(new_Date_in_range se) by lia; reflexivity.
Qed.

(** Same end: when the withdrawn range ends with the split range and
    starts after its start, the result is the one range from the start of
    the split range to the withdrawn start minus one day. *)
Theorem dateRangeSplitter_same_end st s w (ss se ws we : Z) :
  is_Some (heap st !! s) → is_Some (heap st !! w) →
  complete (heap st) s w = true →
  time_in (heap st) s "startDate" = Num ss →
  time_in (heap st) s "endDate" = Num se →
  time_in (heap st) w "startDate" = Num ws →
  time_in (heap st) w "endDate" = Num we →
  we = se → ss < ws → ws ≤ se →
  ∃ st', dateRangeSplitter s w st
         = Some (RArray [Some (mkRange (mkDate (Num ss))
                                       (new_Date (VNumber (Num (ws - 86400000)))))],
                 st').
Proof.
  destruct st as [h c]; cbn [heap].
  intros Hs Hw Hc Ess Ese Ews Ewe.
  intros -> H1 H2.
  destruct (dateRangeSplitter_run s w h c Hs Hw) as [st' E].
  exists st'. rewrite E, Hc, Ess, Ese, Ews, Ewe. do 2 f_equal.
  apply time_in_range in Ess, Ese, Ews.
  split_eval; rewrite !(new_Date_in_range ss) by lia; reflexivity.
Qed.

(** Overhang on the left: when the withdrawn range starts before the
    split range and ends inside it, the result is the one range from the
    withdrawn end plus one day to the end of the split range. *)
Theorem dateRangeSplitter_left_overhang st s w (ss se ws we : Z) :
  is_Some (heap st !! s) → is_Some (heap st !! w) →
  complete (heap st) s w = true →
  time_in (heap st) s "startDate" = Num ss →
  time_in (heap st) s "endDate" = Num se →
  time_in (heap st) w "startDate" = Num ws →
  time_in (heap st) w "endDate" = Num we →
  ws < ss → ss ≤ we → we ≤ se →
  ∃ st', dateRangeSplitter s w st
         = Some (RArray [Some (mkRange (new_Date (VNumber (Num (we + 86400000))))
                                       (mkDate (Num se)))], st').
Proof.
  destruct st as [h c]; cbn [heap].
  intros Hs Hw Hc Ess Ese Ews Ewe.
  intros H1 H2 H3.
  destruct (dateRangeSplitter_run s w h c Hs Hw) as [st' E].
  exists st'. rewrite E, Hc, Ess, Ese, Ews, Ewe. do 2 f_equal.
  apply time_in_range in Ess, Ese, Ews, Ewe.
  split_eval; rewrite !(new_Date_in_range se) by lia; reflexivity.
Qed.

(** Overhang on the right: when the withdrawn range starts inside the
    split range (its start included) and ends more than one day after it,
    the result is the one range from the start of the split range to the
    withdrawn start minus one day; this range ends before it starts when
    the two ranges start together. *)
Theorem dateRangeSplitter_right_overhang st s w (ss se ws we : Z) :
  is_Some (heap st !! s) → is_Some (heap st !! w) →
  complete (heap st) s w = true →
  time_in (heap st) s "startDate" = Num ss →
  time_in (heap st) s "endDate" = Num se →
  time_in (heap st) w "startDate" = Num ws →
  time_in (heap st) w "endDate" = Num we →
  ss ≤ ws → ws ≤ se → se + 86400000 < we →
  ∃ st', dateRangeSplitter s w st
         = Some (RArray [Some (mkRange (mkDate (Num ss))
                                       (new_Date (VNumber (Num (ws - 86400000)))))],
                 st').
Proof.
  destruct st as [h c]; cbn [heap].
  intros Hs Hw Hc Ess Ese Ews Ewe.
  intros H1 H2 H3.
  destruct (dateRangeSplitter_run s w h c Hs Hw) as [st' E].
  exists st'. rewrite E, Hc, Ess, Ese, Ews, Ewe. do 2 f_equal.
  apply time_in_range in Ess, Ese, Ews, Ewe.
  split_eval; rewrite !(new_Date_in_range ss) by lia; reflexivity.
Qed.

(** Short overhang on the right: when the withdrawn range starts after
    the start of the split range and ends after its end, but at most one
    day after, branch 2 is taken and two ranges are returned; the second
    one starts after it ends. *)
Theorem dateRangeSplitter_short_overhang st s w (ss se ws we : Z) :
  is_Some (heap st !! s) → is_Some (heap st !! w) →
  complete (heap st) s w = true →
  time_in (heap st) s "startDate" = Num ss →
  time_in (heap st) s "endDate" = Num se →
  time_in (heap st) w "startDate" = Num ws →
  time_in (heap st) w "endDate" = Num we →
  ss < ws → ws ≤ se → se < we → we ≤ se + 86400000 →
  we + 86400000 ≤ MAX_TIME →
  ∃ r2 st',
    dateRangeSplitter s w st
    = Some (RArray [Some (mkRange (mkDate (Num ss))
                                  (new_Date (VNumber (Num (ws - 86400000)))));
                    Some r2], st')
    ∧ r2 = mkRange (mkDate (Num (we + 86400000))) (mkDate (Num se))
    ∧ num_gt (getTime (startDate r2)) (getTime (endDate r2)) = true.
Proof.
  destruct st as [h c]; cbn [heap].
  intros Hs Hw Hc Ess Ese Ews Ewe.
  intros H1 H2 H3 H4 H5.
  destruct (dateRangeSplitter_run s w h c Hs Hw) as [st' E].
  eexists _, st'. split; [| split; [reflexivity |]].
  - rewrite E, Hc, Ess, Ese, Ews, Ewe. do 2 f_equal.
    apply time_in_range in Ess, Ese, Ews, Ewe.
    split_eval;
      rewrite !(new_Date_in_range ss), !(new_Date_in_range se),
              !(new_Date_in_range (we + _)) by lia;
      reflexivity.
  - simpl. lia.
Qed.

(** ** [dateRangeSplitter]: what remains of the split range *)

Ltac each_range Hr :=
  repeat (apply elem_of_cons in Hr as [Hr | Hr];
          [first [ by simplify_eq
                 | simplify_eq; eexists _, _; split; [reflexivity | lia] ] |]);
  by apply elem_of_nil in Hr.


(** When, in addition, each gap left at an end of the split range is
    empty or at least one day long (as it is for dates that are whole
    days apart), every range returned starts no later than it ends. *)
Theorem dateRangeSplitter_within_ordered st s w (ss se ws we : Z) :
  is_Some (heap st !! s) → is_Some (heap st !! w) →
  complete (heap st) s w = true →
  time_in (heap st) s "startDate" = Num ss →
  time_in (heap st) s "endDate" = Num se →
  time_in (heap st) w "startDate" = Num ws →
  time_in (heap st) w "endDate" = Num we →
  ss ≤ ws → ws ≤ we → we ≤ se →
  - MAX_TIME ≤ ws - 86400000 → we + 86400000 ≤ MAX_TIME →
  ws = ss ∨ ss + 86400000 ≤ ws → we = se ∨ we + 86400000 ≤ se →
  ∃ l st',
    dateRangeSplitter s w st = Some (RArray l, st')
    ∧ ∀ r, Some r ∈ l →
        ∃ a b, r = mkRange (mkDate (Num a)) (mkDate (Num b)) ∧ a ≤ b.
Proof.
  destruct st as [h c]; cbn [heap].
  intros Hs Hw Hc Ess Ese Ews Ewe.
  intros H1 H2 H3 H4 H5 H6 H7.
  destruct (dateRangeSplitter_run s w h c Hs Hw) as [st' E].
  rewrite E, Hc, Ess, Ese, Ews, Ewe.
  apply time_in_range in Ess, Ese, Ews, Ewe.
  split_eval; rewrite ?new_Date_in_range by lia;
    eexists _, st'; (split; [reflexivity |]); intros r Hr; each_range Hr.
Qed.


(** ** [dateRangeOverlaps] on ordered ranges *)

(** On two ranges with valid dates, each starting no later than it ends,
    [dateRangeOverlaps] is the usual test of two closed intervals (each
    one starts before the other ends), and the order of the arguments does
    not matter. *)
Theorem dateRangeOverlaps_ordered st a b (s1 e1 s2 e2 : Z) :
  is_Some (heap st !! a) → is_Some (heap st !! b) →
  time_in (heap st) a "startDate" = Num s1 →
  time_in (heap st) a "endDate" = Num e1 →
  time_in (heap st) b "startDate" = Num s2 →
  time_in (heap st) b "endDate" = Num e2 →
  s1 ≤ e1 → s2 ≤ e2 →
  fst <$> dateRangeOverlaps a b st = Some (bool_decide (s1 ≤ e2 ∧ s2 ≤ e1))
  ∧ fst <$> dateRangeOverlaps b a st = fst <$> dateRangeOverlaps a b st.
Proof.
  destruct st as [h c]; cbn [heap]. intros Ha Hb E1 E2 E3 E4 H1 H2.
  rewrite !dateRangeOverlaps_value by done. unfold overlaps_in.
  rewrite E1, E2, E3, E4. split; f_equal.
  - unfold overlaps. cbn [num_lt num_le].
    case_bool_decide; num_cases; lia.
  - by apply overlaps_ordered_sym.
Qed.

(** A range overlaps itself exactly when its two dates are valid and its
    start is no later than its end: a reversed range does not overlap
    itself. *)
Theorem dateRangeOverlaps_self st a :
  is_Some (heap st !! a) →
  fst <$> dateRangeOverlaps a a st
  = Some (num_le (time_in (heap st) a "startDate") (time_in (heap st) a "endDate")).
Proof.
  destruct st as [h c]; cbn [heap]. intros Ha.
  rewrite dateRangeOverlaps_value by done. f_equal.
  unfold overlaps_in, overlaps, time_in.
  destruct (timeValue_cases (field h a "startDate")) as [-> | (z1 & -> & _)],
           (timeValue_cases (field h a "endDate")) as [-> | (z2 & -> & _)];
    try done.
  - cbn [num_le num_lt]. by rewrite !andb_false_r.
  - cbn [num_le num_lt]. by num_cases.
Qed.

(** ** [compareDateRanges]: a comparison that leaves no trace *)

Lemma num_lt_asym x y : num_lt x y = true → num_lt y x = false.
Proof.
  destruct x as [| [] | a], y as [| [] | b]; simpl; try done.
  intros H%Z.ltb_lt. apply Z.ltb_ge. lia.
Qed.

Lemma complete_sym h a b : complete h a b = complete h b a.
Proof.
  unfold complete.
  destruct (ToBoolean (field h a "startDate")), (ToBoolean (field h a "endDate")),
    (ToBoolean (field h b "startDate")), (ToBoolean (field h b "endDate")); done.
Qed.

(** [compareDateRanges] always returns on live objects, with one of
    [null], [-1], [0], [1], and it changes neither the store nor the
    console: unlike [dateRangeOverlaps] it does not touch its arguments. *)
Theorem compareDateRanges_pure st dr1 dr2 :
  is_Some (heap st !! dr1) → is_Some (heap st !! dr2) →
  ∃ r, compareDateRanges dr1 dr2 st = Some (r, st)
       ∧ (r = None ∨ r = Some (-1) ∨ r = Some 0 ∨ r = Some 1).
Proof.
  destruct st as [h c]; cbn [heap]. intros H1 H2.
  eexists. split; [by apply compareDateRanges_run |].
  unfold compare_result. destruct (negb _); [auto |].
  destruct (num_lt _ _); [auto |]. destruct (num_gt _ _); auto.
Qed.

(** Exchanging the two arguments of [compareDateRanges] negates the
    result ([null] stays [null]). *)
Theorem compareDateRanges_antisym st dr1 dr2 :
  is_Some (heap st !! dr1) → is_Some (heap st !! dr2) →
  ∃ r, compareDateRanges dr1 dr2 st = Some (r, st)
       ∧ compareDateRanges dr2 dr1 st = Some (Z.opp <$> r, st).
Proof.
  destruct st as [h c]; cbn [heap]. intros H1 H2.
  eexists. split; [by apply compareDateRanges_run |].
  rewrite compareDateRanges_run by done. do 2 f_equal.
  rewrite (complete_sym h dr2 dr1). unfold compare_result, num_gt.
  destruct (negb _); [done |].
  destruct (num_lt (num_sub (time_in h dr1 "endDate") (time_in h dr1 "startDate"))
                   (num_sub (time_in h dr2 "endDate") (time_in h dr2 "startDate")))
    eqn:E12.
  - rewrite (num_lt_asym _ _ E12). reflexivity.
  - clear E12. destruct (num_lt _ _); reflexivity.
Qed.

(** On ranges with valid dates whose durations stay below [2^53] ms (the
    integers a double holds exactly), [compareDateRanges] is the
    comparison of the two durations, end minus start. *)
Theorem compareDateRanges_durations st dr1 dr2 (s1 e1 s2 e2 : Z) :
  is_Some (heap st !! dr1) → is_Some (heap st !! dr2) →
  complete (heap st) dr1 dr2 = true →
  time_in (heap st) dr1 "startDate" = Num s1 →
  time_in (heap st) dr1 "endDate" = Num e1 →
  time_in (heap st) dr2 "startDate" = Num s2 →
  time_in (heap st) dr2 "endDate" = Num e2 →
  Z.abs (e1 - s1) < 2 ^ 53 → Z.abs (e2 - s2) < 2 ^ 53 →
  compareDateRanges dr1 dr2 st
  = Some (Some match e1 - s1 ?= e2 - s2 with
               | Lt => -1
               | Eq => 0
               | Gt => 1
               end, st).
Proof.
  destruct st as [h c]; cbn [heap]. intros H1 H2 Hc E1 E2 E3 E4 D1 D2.
  rewrite compareDateRanges_run by done. rewrite Hc, E1, E2, E3, E4.
  unfold compare_result, num_gt, num_sub, num_neg, num_add. cbn [negb].
  rewrite !round_double_small by (by rewrite Z.add_opp_r).
  rewrite !Z.add_opp_r. cbn [num_lt].
  destruct (Z.compare_spec (e1 - s1) (e2 - s2)); num_cases; done.
Qed.

(** ** [checkAvailabibility]: what the scan leaves behind *)

Lemma scan_snoc b h xs a :
  scan b h (xs ++ [a]) = normalize b (normalize a (scan b h xs)).
Proof. unfold scan. by rewrite foldl_app. Qed.

Lemma scan_live b h xs l : is_Some (scan b h xs !! l) ↔ is_Some (h !! l).
Proof.
  induction xs as [| a xs IH] using rev_ind; [done |].
  by rewrite scan_snoc, !normalize_live.
Qed.

Lemma time_in_scan b h xs l f : time_in (scan b h xs) l f = time_in h l f.
Proof.
  induction xs as [| a xs IH] using rev_ind; [done |].
  by rewrite scan_snoc, time_in_normalize2.
Qed.

Lemma lookup_normalize_ne l h l' : l' ≠ l → normalize l h !! l' = h !! l'.
Proof.
  intros Hne. unfold normalize. destruct (h !! l); [| done].
  by rewrite lookup_insert_ne.
Qed.

Lemma scan_lookup_ne b h xs l : l ≠ b → l ∉ xs → scan b h xs !! l = h !! l.
Proof.
  intros Hb. induction xs as [| a xs IH] using rev_ind; [done |].
  intros Hl. rewrite scan_snoc, !lookup_normalize_ne; [| set_solver | done].
  apply IH. set_solver.
Qed.

Lemma checkAvailabibility_loop_state h b array :
  is_Some (h !! b) → (∀ a, a ∈ array → is_Some (h !! a)) →
  ∀ todo visited c',
    array = visited ++ todo →
    (∀ a, a ∈ visited → overlaps_in h a b = false) →
    ∃ r c'' scanned,
      checkAvailabibility_loop array todo b (mkState (scan b h visited) c')
      = Some (r, mkState (scan b h scanned) c'')
      ∧ ((r = -1 ∧ scanned = array ∧ ∀ a, a ∈ array → overlaps_in h a b = false)
         ∨ ∃ i : nat, r = Z.of_nat i ∧ scanned = take (S i) array).
Proof.
  intros Hb Hlive. induction todo as [| dr todo IH]; intros visited c' Harr Hv.
  - rewrite app_nil_r in Harr. subst visited.
    eexists (-1), c', array. split; [done |]. by left.
  - assert (Hdr : dr ∈ array) by (rewrite Harr; apply elem_of_app; right; left).
    destruct (proj2 (scan_live b h visited dr) (Hlive dr Hdr)) as [o Eo].
    destruct (proj2 (scan_live b h visited b) Hb) as [ob Eb].
    cbn [checkAvailabibility_loop].
    rewrite (run_bind _ _ _ _ _ (dateRangeOverlaps_run dr b _ c' o ob Eo Eb)).
    rewrite <- scan_snoc.
    assert (Eov : overlaps_in (scan b h visited) dr b = overlaps_in h dr b)
      by (unfold overlaps_in; by rewrite !time_in_scan).
    rewrite Eov. destruct (overlaps_in h dr b) eqn:Hov.
    + assert (Hnv : dr ∉ visited) by (intros Hin; apply Hv in Hin; congruence).
      eexists _, _, (visited ++ [dr]). split; [reflexivity |]. right.
      exists (length visited). split.
      * unfold indexOf. rewrite Harr, indexOf_from_app by done. lia.
      * rewrite Harr.
        rewrite (take_app_ge visited) by lia.
        replace (S (length visited) - length visited)%nat with 1%nat by lia.
        done.
    + apply (IH (visited ++ [dr])).
      * by rewrite <- app_assoc.
      * intros a Ha. apply elem_of_app in Ha as [Ha | Ha]; [by apply Hv |].
        apply list_elem_of_singleton in Ha. by subst a.
Qed.

(** [checkAvailabibility] normalises the candidate and the elements it
    visits, up to the first one that overlaps, and nothing else: every
    other object is left as it was, an empty array leaves the whole
    store as it was, and no field of any object changes its time
    value. *)
Theorem checkAvailabibility_store st array b :
  (∀ a, a ∈ array → is_Some (heap st !! a)) → is_Some (heap st !! b) →
  ∃ r st',
    checkAvailabibility array b st = Some (r, st')
    ∧ (∀ l f, time_in (heap st') l f = time_in (heap st) l f)
    ∧ (∀ l, l ≠ b →
         (r = -1 → l ∉ array) →
         (0 ≤ r → l ∉ take (S (Z.to_nat r)) array) →
         heap st' !! l = heap st !! l)
    ∧ (array = [] → heap st' = heap st).
Proof.
  destruct st as [h c]; cbn [heap]. intros Hlive Hb.
  destruct (checkAvailabibility_loop_state h b array Hb Hlive array [] c)
    as (r & c' & scanned & E & Hr); [done | by intros a Ha%elem_of_nil |].
  eexists _, _. split; [exact E |]. cbn [heap].
  split; [| split].
  - intros l f. apply time_in_scan.
  - intros l Hl Hno Hyes. apply scan_lookup_ne; [done |].
    destruct Hr as [(-> & -> & _) | (i & -> & ->)]; [by apply Hno |].
    rewrite Nat2Z.id in Hyes. apply Hyes. lia.
  - intros ->. destruct Hr as [(-> & -> & _) | (i & -> & ->)]; done.
Qed.

(** After [checkAvailabibility] has answered [-1] for an array and a
    candidate, [dateRangeSplitter] on any element of the array and that
    candidate returns the empty array: a range the scan found free of the
    candidate cannot be split by it. *)
Theorem checkAvailabibility_then_split st array b st1 :
  (∀ a, a ∈ array → is_Some (heap st !! a)) → is_Some (heap st !! b) →
  checkAvailabibility array b st = Some (-1, st1) →
  ∀ a, a ∈ array → ∃ st2, dateRangeSplitter a b st1 = Some (RArray [], st2).
Proof.
  destruct st as [h c]; cbn [heap]. intros Hlive Hb Hrun a Ha.
  destruct (checkAvailabibility_loop_state h b array Hb Hlive array [] c)
    as (r & c' & scanned & E & Hr); [done | by intros x Hx%elem_of_nil |].
  unfold checkAvailabibility in Hrun. cbn [scan foldl] in E.
  rewrite E in Hrun. injection Hrun as -> <-.
  destruct Hr as [(_ & -> & Hno) | (i & Hi & _)]; [| lia].
  destruct (dateRangeSplitter_run a b (scan b h array) c') as [st2 E2].
  { apply scan_live. auto. }
  { by apply scan_live. }
  exists st2. rewrite E2. do 2 f_equal. rewrite !time_in_scan.
  pose proof (Hno a Ha) as Hov. unfold overlaps_in in Hov.
  unfold split_result. rewrite Hov. by destruct (negb _).
Qed.

(** ** Splitting strings *)

Lemma append_cons c (s t : string) : String c s +:+ t = String c (s +:+ t).
Proof. reflexivity. Qed.

Lemma append_empty_r (s : string) : s +:+ "" = s.
Proof.
  induction s as [| c s IH]; [done |]. by rewrite append_cons, IH.
Qed.

Lemma String_split_free sep s :
  occurs sep s = false → String_split sep s = [s].
Proof.
  induction s as [| c s IH]; simpl; [done |].
  intros [H1 H2]%orb_false_elim. by rewrite H1, IH.
Qed.

Lemma String_split_app sep a b :
  occurs sep a = false →
  String_split sep (a +:+ String sep b) = a :: String_split sep b.
Proof.
  induction a as [| c a IH].
  - intros _. change ("" +:+ String sep b) with (String sep b). simpl.
    by rewrite Ascii.eqb_refl.
  - rewrite append_cons. simpl.
    intros [H1 H2]%orb_false_elim. by rewrite H1, IH.
Qed.

(** A string has no separator, or it is cut at its first separator. *)
Lemma String_split_cut sep s :
  occurs sep s = false
  ∨ ∃ a b, s = a +:+ String sep b ∧ occurs sep a = false.
Proof.
  induction s as [| c s IH]; simpl; [by left |].
  destruct (Ascii.eqb_spec c sep) as [-> | Hc]; simpl.
  - right. by exists "", s.
  - destruct IH as [H | (a & b & -> & Ha)]; [by left |].
    right. exists (String c a), b. split; [done |]. simpl.
    destruct (Ascii.eqb_spec c sep); [done | exact Ha].
Qed.

(** The second piece is what stands between the first separator and the
    next one (or the end of the string). *)
Lemma String_split_second sep s t :
  String_split sep s !! 1%nat = Some t
  ↔ ∃ a tail,
      s = a +:+ String sep (t +:+ tail)
      ∧ occurs sep a = false ∧ occurs sep t = false
      ∧ (tail = "" ∨ ∃ r, tail = String sep r).
Proof.
  split.
  - intros H. destruct (String_split_cut sep s) as [Hs | (a & b & -> & Ha)].
    { by rewrite String_split_free in H. }
    rewrite String_split_app in H by done. simpl in H.
    destruct (String_split_cut sep b) as [Hb | (a' & b' & -> & Ha')].
    + rewrite String_split_free in H by done. simplify_eq/=.
      exists a, "". rewrite append_empty_r. auto.
    + rewrite String_split_app in H by done. simplify_eq/=.
      exists a, (String sep b'). eauto 10.
  - intros (a & tail & -> & Ha & Ht & [-> | [r ->]]).
    + rewrite String_split_app, append_empty_r by done.
      by rewrite String_split_free.
    + by rewrite !String_split_app.
Qed.

(** ** [verifyJWT] and the bookings route *)

(** Without an [authorization] header, or with one that holds no space
    (the empty header and a bare token included), [verifyJWT] answers 401
    whatever [jwt.verify] would say, and the rest of the route is not
    run. *)
Theorem verifyJWT_no_token req next :
  headers req !! "authorization" = None
  ∨ (∃ h, headers req !! "authorization" = Some h ∧ occurs " " h = false) →
  verifyJWT req next = Some unauthorized.
Proof.
  unfold verifyJWT. intros [-> | (h & -> & Hh)]; [done |].
  destruct (String.eqb_spec h "") as [-> | Hne]; [done |].
  by rewrite String_split_free.
Qed.

(** The token [verifyJWT] hands to [jwt.verify] is the text between the
    first space of the header and the next space: the word before it
    (the scheme) is not looked at and whatever follows a second space is
    dropped.  An empty token is answered 401; otherwise the route goes on,
    with [req.user] set to the decoded payload, exactly when [jwt.verify]
    accepts the token. *)
Theorem verifyJWT_second_word req next scheme tok tail :
  headers req !! "authorization" = Some (scheme +:+ String " " (tok +:+ tail)) →
  occurs " " scheme = false → occurs " " tok = false →
  tail = "" ∨ (∃ r, tail = String " " r) →
  verifyJWT req next
  = if String.eqb tok "" then Some unauthorized
    else match jwt_verify tok secretKey with
         | None => Some unauthorized
         | Some decoded => next (mkRequest (headers req) (Some decoded))
         end.
Proof.
  intros Hh Hs Ht Htail. unfold verifyJWT. rewrite Hh.
  assert (String.eqb (scheme +:+ String " " (tok +:+ tail)) "" = false) as ->
    by (by destruct scheme).
  assert (String_split " " (scheme +:+ String " " (tok +:+ tail)) !! 1%nat
          = Some tok) as ->.
  { apply String_split_second. exists scheme, tail. auto. }
  simpl. by destruct (String.eqb tok "").
Qed.

(** Every request to [POST /bookings] is answered, with 401 or with the
    index view, and the view is only sent when [jwt.verify] accepted the
    non-empty second word of the [authorization] header. *)
Theorem bookings_post_answers req :
  ∃ resp,
    bookings_post req = Some resp
    ∧ (resp = unauthorized
       ∨ (resp = RenderView "index" {[ "title" := VString "Express" ]}
          ∧ ∃ h t decoded,
              headers req !! "authorization" = Some h
              ∧ String_split " " h !! 1%nat = Some t ∧ t ≠ ""
              ∧ jwt_verify t secretKey = Some decoded)).
Proof.
  unfold bookings_post, verifyJWT.
  destruct (headers req !! "authorization") as [h |]; [| eauto].
  destruct (String.eqb_spec h "") as [-> | Hne]; [eauto |].
  destruct (String_split " " h !! 1%nat) as [t |] eqn:Et; [| eauto].
  destruct (String.eqb_spec t "") as [-> | Hnt]; [eauto |]. simpl.
  destruct (jwt_verify t secretKey) as [d |] eqn:Ed; [| eauto].
  eexists. split; [done |]. right. split; [done |]. by exists h, t, d.
Qed.

(** ** [googleAuthVerify]: the test of the e-mail address *)

(** [isTokenValid] is [true] exactly for the addresses that read
    "gmail.com" between their first [@] and the next [@] or the end: an
    address that goes on after a second [@] passes as well.  The test is
    a [TypeError] exactly when the e-mail is not a string. *)
Theorem isTokenValid_spec email :
  (isTokenValid email = Some true
   ↔ ∃ name tail,
       email = VString (name +:+ "@gmail.com" +:+ tail)
       ∧ occurs "@" name = false
       ∧ (tail = "" ∨ ∃ r, tail = String "@" r))
  ∧ (isTokenValid email = None ↔ ∀ e, email ≠ VString e).
Proof.
  split.
  - split.
    + destruct email as [| | | | e |]; try done. simpl. intros H.
      destruct (String_split "@" e !! 1%nat) as [d |] eqn:Ed; [| done].
      assert (d = "gmail.com") as -> by (apply String.eqb_eq; congruence).
      apply String_split_second in Ed as (a & tail & -> & Ha & _ & Htail).
      by exists a, tail.
    + intros (name & tail & -> & Hn & Htail). simpl.
      assert (String_split "@" (name +:+ "@gmail.com" +:+ tail) !! 1%nat
              = Some "gmail.com") as ->; [| done].
      apply String_split_second. by exists name, tail.
  - destruct email; simpl; split; try done; intros H; try (by intros e);
      by destruct (H s).
Qed.

End LeaseLibrary.

(** ** The functions at work on the example ranges *)

Example equal_ranges :
  fst <$> dateRangeSplitter unparsed 1 2
            (two_ranges (range (onDay 1) (onDay 10)) (range (onDay 1) (onDay 10)))
  = Some (RArray [None]).
Proof. vm_compute. reflexivity. Qed.

Example left_aligned_withdrawal :
  fst <$> dateRangeSplitter unparsed 1 2
            (two_ranges (range (onDay 1) (onDay 10)) (range (onDay 1) (onDay 5)))
  = Some (RArray [Some (mkRange (mkDate (Num (january2024 6)))
                                (mkDate (Num (january2024 10))))]).
Proof. vm_compute. reflexivity. Qed.

Example right_aligned_withdrawal :
  fst <$> dateRangeSplitter unparsed 1 2
            (two_ranges (range (onDay 1) (onDay 10)) (range (onDay 6) (onDay 10)))
  = Some (RArray [Some (mkRange (mkDate (Num (january2024 1)))
                                (mkDate (Num (january2024 5))))]).
Proof. vm_compute. reflexivity. Qed.

Example disjoint_ranges :
  fst <$> dateRangeSplitter unparsed 1 2
            (two_ranges (range (onDay 1) (onDay 5)) (range (onDay 32) (onDay 36)))
  = Some (RArray []).
Proof. vm_compute. reflexivity. Qed.

Example reversed_withdrawal :
  fst <$> dateRangeSplitter unparsed 1 2
            (two_ranges (range (onDay 1) (onDay 10)) (range (onDay 6) (onDay 4)))
  = Some (RArray []).
Proof. vm_compute. reflexivity. Qed.

Example missing_startDate :
  fst <$> dateRangeSplitter unparsed 1 2
            (two_ranges {[ "endDate" := onDay 10 ]} (range (onDay 4) (onDay 6)))
  = Some (RArray []).
Proof. vm_compute. reflexivity. Qed.

Example no_range_to_scan st : fst <$> checkAvailabibility unparsed [] 1 st = Some (-1).
Proof. reflexivity. Qed.

Example second_range_overlaps :
  fst <$> checkAvailabibility unparsed [1; 2; 2]%positive 2
            (two_ranges (range (onDay 1) (onDay 3)) (range (onDay 6) (onDay 8)))
  = Some 1.
Proof. vm_compute. reflexivity. Qed.

Example same_duration :
  fst <$> compareDateRanges unparsed 1 1
            (two_ranges (range (onDay 1) (onDay 10)) (range (onDay 4) (onDay 6)))
  = Some (Some 0).
Proof. vm_compute. reflexivity. Qed.

(** ** The theorems at concrete ranges *)

Lemma dateRangeSplitter_superset_witness :
  ∃ st', dateRangeSplitter unparsed 1 2
           (two_ranges (range (onDay 5) (onDay 10)) (range (onDay 1) (onDay 20)))
         = Some (RArray [Some (mkRange (mkDate (Num (january2024 5)))
                                       (mkDate (Num (january2024 10))))], st').
Proof.
  apply (dateRangeSplitter_superset unparsed
           (two_ranges (range (onDay 5) (onDay 10)) (range (onDay 1) (onDay 20)))
           1 2 (january2024 5) (january2024 10) (january2024 1) (january2024 20));
    try (eexists; reflexivity); try reflexivity; vm_compute; congruence.
Defined.

Lemma dateRangeSplitter_shapes_witness :
  ∃ r st',
    dateRangeSplitter unparsed 1 2
      (two_ranges (range (onDay 1) (onDay 10)) (range (VString "soon") VNull))
    = Some (RArray r, st')
    ∧ r = [].
Proof.
  destruct (dateRangeSplitter_shapes unparsed
              (two_ranges (range (onDay 1) (onDay 10)) (range (VString "soon") VNull))
              1 2 (ex_intro _ _ eq_refl) (ex_intro _ _ eq_refl))
    as (r & st' & E & _ & Hrej).
  exists r, st'. split; [exact E |]. apply Hrej. left. reflexivity.
Defined.

Lemma dateRangeSplitter_interior_witness :
  ∃ st', dateRangeSplitter unparsed 1 2
           (two_ranges (range (onDay 1) (onDay 10)) (range (onDay 4) (onDay 6)))
         = Some (RArray [Some (mkRange (mkDate (Num (january2024 1)))
                                       (mkDate (Num (january2024 3))));
                         Some (mkRange (mkDate (Num (january2024 7)))
                                       (mkDate (Num (january2024 10))))], st').
Proof.
  apply (dateRangeSplitter_interior unparsed
           (two_ranges (range (onDay 1) (onDay 10)) (range (onDay 4) (onDay 6)))
           1 2 (january2024 1) (january2024 10) (january2024 4) (january2024 6));
    try (eexists; reflexivity); try reflexivity; vm_compute; congruence.
Defined.

Lemma dateRangeSplitter_equal_witness :
  ∃ st', dateRangeSplitter unparsed 1 2
           (two_ranges (range (onDay 1) (onDay 10)) (range (onDay 1) (onDay 10)))
         = Some (RArray [None], st').
Proof.
  apply (dateRangeSplitter_equal unparsed
           (two_ranges (range (onDay 1) (onDay 10)) (range (onDay 1) (onDay 10)))
           1 2 (january2024 1) (january2024 10));
    try (eexists; reflexivity); try reflexivity; vm_compute; congruence.
Defined.

Lemma dateRangeSplitter_inverted_witness :
  ∃ r st',
    dateRangeSplitter unparsed 1 2
      (two_ranges (range (onDay 1) (onDay 10)) (range (onDay 1) (onDay 11)))
    = Some (RArray [Some r], st')
    ∧ r = mkRange (mkDate (Num (january2024 12))) (mkDate (Num (january2024 10)))
    ∧ num_gt (getTime (startDate r)) (getTime (endDate r)) = true.
Proof.
  apply (dateRangeSplitter_inverted unparsed
           (two_ranges (range (onDay 1) (onDay 10)) (range (onDay 1) (onDay 11)))
           1 2 (january2024 1) (january2024 10));
    try (eexists; reflexivity); try reflexivity; vm_compute; congruence.
Defined.

(** The claim C7 as it was stated fails: the first range is 1 to 10
    January, the second one starts on 5 January and its end is a string
    that does not parse; the call returns [true]. *)
Lemma dateRangeOverlaps_unparseable_counterexample :
  ¬ (∀ st a b,
       is_Some (heap st !! a) → is_Some (heap st !! b) →
       unparseable unparsed (heap st) a "startDate"
       ∨ unparseable unparsed (heap st) a "endDate"
       ∨ unparseable unparsed (heap st) b "startDate"
       ∨ unparseable unparsed (heap st) b "endDate" →
       ∃ st', dateRangeOverlaps unparsed a b st = Some (false, st')).
Proof.
  intros H.
  destruct (H (two_ranges (range (onDay 1) (onDay 10))
                          (range (onDay 5) (VString "not a date")))
              1%positive 2%positive) as [st' E].
  - eexists; reflexivity.
  - eexists; reflexivity.
  - right; right; right. split; reflexivity.
  - vm_compute in E. discriminate E.
Qed.

Lemma dateRangeOverlaps_unparseable_witness :
  ∃ st', dateRangeOverlaps unparsed 1 2
           (two_ranges (range (onDay 1) (VString "not a date"))
                       (range (onDay 5) (onDay 6)))
         = Some (false, st').
Proof.
  destruct (dateRangeOverlaps_unparseable unparsed
              (two_ranges (range (onDay 1) (VString "not a date"))
                          (range (onDay 5) (onDay 6)))
              1 2 (ex_intro _ _ eq_refl) (ex_intro _ _ eq_refl))
    as (r & st' & E & Hfalse & _).
  exists st'. rewrite E, Hfalse; [reflexivity |]. right; left. reflexivity.
Defined.

Lemma checkAvailabibility_first_witness :
  ∃ r st',
    checkAvailabibility unparsed [1; 2]%positive 2
      (two_ranges (range (onDay 1) (onDay 3)) (range (onDay 6) (onDay 8)))
    = Some (r, st')
    ∧ r = 1.
Proof.
  destruct (checkAvailabibility_first unparsed
              (two_ranges (range (onDay 1) (onDay 3)) (range (onDay 6) (onDay 8)))
              [1; 2]%positive 2)
    as (r & st' & E & _ & Hr).
  - intros a Ha. apply elem_of_cons in Ha as [-> | Ha]; [eexists; reflexivity |].
    apply list_elem_of_singleton in Ha as ->. eexists; reflexivity.
  - eexists; reflexivity.
  - exists r, st'. split; [exact E |].
    vm_compute in E. congruence.
Defined.

Lemma compareDateRanges_unparseable_witness :
  compareDateRanges unparsed 1 2
    (two_ranges (range (VString "soon") (VString "later"))
                (range (VString "one day") (VDate (mkDate NaN))))
  = Some (Some 0,
          two_ranges (range (VString "soon") (VString "later"))
                     (range (VString "one day") (VDate (mkDate NaN)))).
Proof.
  apply (proj1 (compareDateRanges_unparseable unparsed
                  (two_ranges (range (VString "soon") (VString "later"))
                              (range (VString "one day") (VDate (mkDate NaN))))
                  1 2 (ex_intro _ _ eq_refl) (ex_intro _ _ eq_refl)));
    reflexivity.
Defined.

Lemma dateRangeOverlaps_mutation_witness :
  ∃ r st',
    dateRangeOverlaps unparsed 1 2
      (two_ranges (range (onDay 1) (onDay 10)) (range (VString "soon") (onDay 6)))
    = Some (r, st')
    ∧ field (heap st') 1 "startDate" = VNumber (Num (january2024 1))
    ∧ field (heap st') 2 "startDate" = VNumber NaN.
Proof.
  destruct (dateRangeOverlaps_mutation unparsed
              (two_ranges (range (onDay 1) (onDay 10))
                          (range (VString "soon") (onDay 6)))
              1 2 _ _ eq_refl eq_refl) as (r & st' & E & Hf & _).
  exists r, st'. split; [exact E |]. split.
  - apply (Hf 1%positive). by left.
  - apply (Hf 2%positive). by right.
Defined.

(** ** The further theorems at concrete ranges and requests *)

Local Abbreviation days a b c d :=
  (two_ranges (range (onDay a) (onDay b)) (range (onDay c) (onDay d))).

Local Abbreviation live := (ex_intro _ _ eq_refl).

Ltac side :=
  first [ reflexivity
        | by eexists
        | vm_compute; congruence
        | unfold january2024, MAX_TIME; lia ].

Lemma dateRangeOverlaps_ordered_witness :
  fst <$> dateRangeOverlaps unparsed 1 2 (days 1 10 4 6)
  = Some (bool_decide (january2024 1 ≤ january2024 6
                       ∧ january2024 4 ≤ january2024 10))
  ∧ fst <$> dateRangeOverlaps unparsed 2 1 (days 1 10 4 6)
    = fst <$> dateRangeOverlaps unparsed 1 2 (days 1 10 4 6).
Proof.
  apply (dateRangeOverlaps_ordered unparsed (days 1 10 4 6) 1 2); side.
Defined.

Lemma dateRangeOverlaps_self_witness :
  fst <$> dateRangeOverlaps unparsed 1 1 (days 5 1 3 3) = Some false.
Proof. apply (dateRangeOverlaps_self unparsed (days 5 1 3 3) 1 live). Defined.

Lemma dateRangeOverlaps_twice_witness :
  ∃ r st1 st2 r' st3,
    dateRangeOverlaps unparsed 1 2 (days 1 10 4 6) = Some (r, st1)
    ∧ dateRangeOverlaps unparsed 1 2 st1 = Some (r, st2) ∧ heap st2 = heap st1
    ∧ dateRangeOverlaps unparsed 2 1 st1 = Some (r', st3) ∧ heap st3 = heap st1.
Proof.
  apply (dateRangeOverlaps_twice unparsed (days 1 10 4 6) 1 2 live live).
Defined.

Lemma dateRangeSplitter_store_witness :
  ∃ r st',
    dateRangeSplitter unparsed 1 2
      (two_ranges (range VNull (onDay 10)) (range (onDay 4) (onDay 6)))
    = Some (r, st')
    ∧ heap st'
      = heap (two_ranges (range VNull (onDay 10)) (range (onDay 4) (onDay 6))).
Proof.
  destruct (dateRangeSplitter_store unparsed
              (two_ranges (range VNull (onDay 10)) (range (onDay 4) (onDay 6)))
              1 2 live live) as (r & st' & E & Hsame & _).
  exists r, st'. split; [exact E |]. apply Hsame. reflexivity.
Defined.

Lemma dateRangeSplitter_same_start_witness :
  ∃ st', dateRangeSplitter unparsed 1 2 (days 1 10 1 5)
         = Some (RArray [Some (mkRange (mkDate (Num (january2024 6)))
                                       (mkDate (Num (january2024 10))))], st').
Proof.
  apply (dateRangeSplitter_same_start unparsed (days 1 10 1 5) 1 2
           (january2024 1) (january2024 10) (january2024 1) (january2024 5));
    side.
Defined.

Lemma dateRangeSplitter_same_end_witness :
  ∃ st', dateRangeSplitter unparsed 1 2 (days 1 10 6 10)
         = Some (RArray [Some (mkRange (mkDate (Num (january2024 1)))
                                       (mkDate (Num (january2024 5))))], st').
Proof.
  apply (dateRangeSplitter_same_end unparsed (days 1 10 6 10) 1 2
           (january2024 1) (january2024 10) (january2024 6) (january2024 10));
    side.
Defined.

Lemma dateRangeSplitter_left_overhang_witness :
  ∃ st', dateRangeSplitter unparsed 1 2 (days 5 10 1 7)
         = Some (RArray [Some (mkRange (mkDate (Num (january2024 8)))
                                       (mkDate (Num (january2024 10))))], st').
Proof.
  apply (dateRangeSplitter_left_overhang unparsed (days 5 10 1 7) 1 2
           (january2024 5) (january2024 10) (january2024 1) (january2024 7));
    side.
Defined.

Lemma dateRangeSplitter_right_overhang_witness :
  ∃ st', dateRangeSplitter unparsed 1 2 (days 1 10 1 20)
         = Some (RArray [Some (mkRange (mkDate (Num (january2024 1)))
                                       (mkDate (Num (january2024 0))))], st').
Proof.
  apply (dateRangeSplitter_right_overhang unparsed (days 1 10 1 20) 1 2
           (january2024 1) (january2024 10) (january2024 1) (january2024 20));
    side.
Defined.

Lemma dateRangeSplitter_short_overhang_witness :
  ∃ r2 st',
    dateRangeSplitter unparsed 1 2 (days 1 10 8 11)
    = Some (RArray [Some (mkRange (mkDate (Num (january2024 1)))
                                  (mkDate (Num (january2024 7))));
                    Some r2], st')
    ∧ r2 = mkRange (mkDate (Num (january2024 12))) (mkDate (Num (january2024 10)))
    ∧ num_gt (getTime (startDate r2)) (getTime (endDate r2)) = true.
Proof.
  apply (dateRangeSplitter_short_overhang unparsed (days 1 10 8 11) 1 2
           (january2024 1) (january2024 10) (january2024 8) (january2024 11));
    side.
Defined.


Lemma dateRangeSplitter_within_ordered_witness :
  ∃ l st',
    dateRangeSplitter unparsed 1 2 (days 1 10 4 6) = Some (RArray l, st')
    ∧ ∀ r, Some r ∈ l →
        ∃ a b, r = mkRange (mkDate (Num a)) (mkDate (Num b)) ∧ a ≤ b.
Proof.
  apply (dateRangeSplitter_within_ordered unparsed (days 1 10 4 6) 1 2
           (january2024 1) (january2024 10) (january2024 4) (january2024 6));
    first [ side | right; side ].
Defined.


Lemma dateRangeSplitter_after_overlaps_epoch_witness :
  ∃ b st1 st2,
    dateRangeOverlaps unparsed 1 2
      (two_ranges (range (VDate (mkDate (Num 0))) (onDay 10))
                  (range (onDay 4) (onDay 6)))
    = Some (b, st1)
    ∧ dateRangeSplitter unparsed 1 2 st1 = Some (RArray [], st2).
Proof.
  apply (dateRangeSplitter_after_overlaps_epoch unparsed
           (two_ranges (range (VDate (mkDate (Num 0))) (onDay 10))
                       (range (onDay 4) (onDay 6)))
           1 2 live live).
  left. reflexivity.
Defined.

Lemma dateRangeSplitter_after_overlaps_same_witness :
  ∃ b st1,
    dateRangeOverlaps unparsed 1 2 (days 1 10 4 6) = Some (b, st1)
    ∧ fst <$> dateRangeSplitter unparsed 1 2 st1
      = fst <$> dateRangeSplitter unparsed 1 2 (days 1 10 4 6).
Proof.
  apply (dateRangeSplitter_after_overlaps_same unparsed (days 1 10 4 6) 1 2
           live live); side.
Defined.

Lemma compareDateRanges_after_overlaps_witness :
  ∃ b st1,
    dateRangeOverlaps unparsed 1 2
      (two_ranges (range (VString "soon") (onDay 10)) (range (onDay 4) (onDay 6)))
    = Some (b, st1)
    ∧ compareDateRanges unparsed 1 2 st1 = Some (None, st1).
Proof.
  destruct (compareDateRanges_after_overlaps unparsed
              (two_ranges (range (VString "soon") (onDay 10))
                          (range (onDay 4) (onDay 6)))
              1 2 live live) as (b & st1 & E & Hnull).
  exists b, st1. split; [exact E |]. apply Hnull. left. left. reflexivity.
Defined.

Lemma compareDateRanges_pure_witness :
  ∃ r, compareDateRanges unparsed 1 2 (days 1 10 4 6)
       = Some (r, days 1 10 4 6)
       ∧ (r = None ∨ r = Some (-1) ∨ r = Some 0 ∨ r = Some 1).
Proof.
  apply (compareDateRanges_pure unparsed (days 1 10 4 6) 1 2 live live).
Defined.

Lemma compareDateRanges_antisym_witness :
  ∃ r, compareDateRanges unparsed 1 2 (days 1 10 4 6)
       = Some (r, days 1 10 4 6)
       ∧ compareDateRanges unparsed 2 1 (days 1 10 4 6)
         = Some (Z.opp <$> r, days 1 10 4 6).
Proof.
  apply (compareDateRanges_antisym unparsed (days 1 10 4 6) 1 2 live live).
Defined.

Lemma compareDateRanges_durations_witness :
  compareDateRanges unparsed 1 2 (days 1 10 4 6)
  = Some (Some 1, days 1 10 4 6).
Proof.
  apply (compareDateRanges_durations unparsed (days 1 10 4 6) 1 2
           (january2024 1) (january2024 10) (january2024 4) (january2024 6));
    side.
Defined.

Lemma checkAvailabibility_store_witness :
  ∃ r st',
    checkAvailabibility unparsed [1]%positive 1 (days 1 3 6 8) = Some (r, st')
    ∧ heap st' !! 2%positive = heap (days 1 3 6 8) !! 2%positive.
Proof.
  destruct (checkAvailabibility_store unparsed (days 1 3 6 8) [1]%positive 1)
    as (r & st' & E & _ & Hframe & _).
  - intros a Ha. apply list_elem_of_singleton in Ha as ->. exact live.
  - exact live.
  - exists r, st'. split; [exact E |]. apply Hframe.
    + discriminate.
    + intros _ Hin. apply list_elem_of_singleton in Hin. discriminate.
    + intros _ Hin. simpl in Hin. rewrite take_nil in Hin.
      apply list_elem_of_singleton in Hin. discriminate.
Defined.

Lemma checkAvailabibility_then_split_witness :
  ∃ st1 st2,
    checkAvailabibility unparsed [1]%positive 2 (days 1 3 6 8) = Some (-1, st1)
    ∧ dateRangeSplitter unparsed 1 2 st1 = Some (RArray [], st2).
Proof.
  destruct (checkAvailabibility unparsed [1]%positive 2 (days 1 3 6 8))
    as [[r st1] |] eqn:E; [| vm_compute in E; discriminate].
  assert (r = -1) as -> by (vm_compute in E; congruence).
  destruct (checkAvailabibility_then_split unparsed (days 1 3 6 8)
              [1]%positive 2 st1) with (a := 1%positive) as [st2 E2].
  - intros a Ha. apply list_elem_of_singleton in Ha as ->. exact live.
  - exact live.
  - exact E.
  - left.
  - by exists st1, st2.
Defined.

Lemma verifyJWT_no_token_witness :
  verifyJWT None (λ t _, Some ∅)
    (mkRequest {[ "authorization" := "header.payload.signature" ]} None)
    (λ _, None)
  = Some unauthorized.
Proof.
  apply verifyJWT_no_token. right.
  exists "header.payload.signature". split; reflexivity.
Defined.

Lemma verifyJWT_second_word_witness :
  verifyJWT (Some "secret")
    (λ t _, if String.eqb t "good" then Some ∅ else None)
    (mkRequest {[ "authorization" := "Basic good and more" ]} None)
    (λ req, Some (RenderView "index" (default ∅ (user req))))
  = Some (RenderView "index" ∅).
Proof.
  apply (verifyJWT_second_word (Some "secret")
           (λ t _, if String.eqb t "good" then Some ∅ else None)
           (mkRequest {[ "authorization" := "Basic good and more" ]} None)
           (λ req, Some (RenderView "index" (default ∅ (user req))))
           "Basic" "good" " and more");
    first [ reflexivity | right; by eexists ].
Defined.
